(** * Quaternion arithmetic and quaternion based 3D rotation

    A shallow embedding of [quaternion.py], [rotation.py] and
    [instance_checker.py], and the properties of the specification proved
    (or refuted) on it.

    The sources are Python 2: the test drivers start with
    [from __future__ import print_function], the expected output of
    [quaternion_test.py] is written with the twelve significant digits of
    Python 2's [str] on floats, and the body of [getScalar] in
    [quaternion.py] is indented with a tab on its first line and with
    spaces on its second, which Python 3 refuses ([TabError]).  No module
    imports [division] from [__future__], so [/] between two [int]s is
    floor division.

    Modelling choices:
    - a Python number is an [int] or a [float].  Floats are idealised as the
      real numbers of the Standard Library (no rounding, no overflow, no
      NaN) and ints as unbounded integers (the [int]/[long] split of
      Python 2 is not represented).  Which operation an operator performs
      still depends on the operand types, as in Python;
    - objects live in a store ([gmap] from locations to objects); a
      reference is a location, so mutation through an alias is visible
      through every alias.  An object is a record of its attributes; an
      attribute that has never been assigned is [None] and reading it
      raises [AttributeError];
    - a computation takes the store and returns a value or a raised
      exception together with the store it leaves behind: the effects of a
      call that raises stay visible. *)

From Stdlib Require Import Reals Lra Lia ZArith Ascii String.
From stdpp Require Import base option gmap strings.

(** ** Python values, exceptions and the store *)

Module Py.

(** Numbers: [int] and [float]. *)
Inductive num :=
| PInt (n : Z)
| PFloat (r : R).

(** The real number a Python number denotes. *)
Definition val (a : num) : R :=
  match a with
  | PInt n => IZR n
  | PFloat r => r
  end.

(** [a + b], [a - b], [a * b]: integer arithmetic on two ints, float
    arithmetic as soon as one operand is a float. *)
Definition add (a b : num) : num :=
  match a, b with
  | PInt m, PInt n => PInt (m + n)
  | _, _ => PFloat (val a + val b)
  end.

Definition sub (a b : num) : num :=
  match a, b with
  | PInt m, PInt n => PInt (m - n)
  | _, _ => PFloat (val a - val b)
  end.

Definition mul (a b : num) : num :=
  match a, b with
  | PInt m, PInt n => PInt (m * n)
  | _, _ => PFloat (val a * val b)
  end.

(** Unary minus. *)
Definition neg (a : num) : num :=
  match a with
  | PInt n => PInt (- n)
  | PFloat r => PFloat (- r)
  end.

(** [a < b]; Python compares an int with a float by value. *)
Definition ltb (a b : num) : bool :=
  if Rlt_dec (val a) (val b) then true else false.

(** Modelled from the spec: [exception.IException], the base class of
    [QuaternionException], [PointException] and [RotationException], whose
    module is not among the sources.  Section 7 of the specification
    describes the failures as signalled errors carrying a descriptive
    message: an exception is its class and its message.  The other
    constructors are the built-in exceptions the interpreter raises. *)
Inductive exn :=
| QuaternionException (msg : string)
| PointException (msg : string)
| RotationException (msg : string)
| ZeroDivisionError
| ValueError
| TypeError
| AttributeError.

(** Modelled from the spec: [str] of an [exception.IException], as
    [format] renders it: the descriptive message of section 7. *)
Definition IException_str (e : exn) : string :=
  match e with
  | QuaternionException msg | PointException msg | RotationException msg => msg
  | ZeroDivisionError => "ZeroDivisionError"
  | ValueError => "ValueError"
  | TypeError => "TypeError"
  | AttributeError => "AttributeError"
  end.

(** [tpl.format(arg)] for a template whose only fields are [{0}]. *)
Fixpoint format (tpl arg : string) : string :=
  match tpl with
  | String "{"%char (String "0"%char (String "}"%char rest)) =>
      (arg ++ format rest arg)%string
  | String c rest => String c (format rest arg)
  | EmptyString => EmptyString
  end.

Inductive result (A : Type) :=
| Ok (a : A)
| Raise (e : exn).
Arguments Ok {A} a.
Arguments Raise {A} e.

(** [a / b] of Python 2: floor division on two ints, true division
    otherwise; a zero divisor raises. *)
Definition div (a b : num) : result num :=
  match a, b with
  | PInt m, PInt n =>
      if decide (n = 0%Z) then Raise ZeroDivisionError else Ok (PInt (m / n))
  | _, _ =>
      if Req_dec_T (val b) 0 then Raise ZeroDivisionError
      else Ok (PFloat (val a / val b))
  end.

(** References and values. *)
Definition loc := positive.

Inductive pyval :=
| VNum (n : num)
| VStr (s : string)
| VNone
| VRef (l : loc).

(** Instances of the three classes, as records of their attributes.
    The numeric attributes only ever receive numbers (every assignment in
    the classes is behind an [isFloat] check or is the result of
    arithmetic on attributes), [__r] and [__q] only ever receive
    references. *)
Record QuaternionObj :=
  { o : option num; i : option num; j : option num; k : option num }.

Record Point3DObj :=
  { x : option num; y : option num; z : option num }.

Record RotationObj :=
  { __r : option loc; __theta : option num; __q : option loc }.

Inductive obj :=
| OQuaternion (q : QuaternionObj)
| OPoint3D (p : Point3DObj)
| ORotation (r : RotationObj).

Abbreviation heap := (gmap loc obj).

(** Computations: store passing with exceptions. *)
Definition M (A : Type) : Type := heap -> result A * heap.

#[export] Instance M_ret : MRet M := λ A a h, (Ok a, h).

#[export] Instance M_bind : MBind M := λ A B f m h,
  match m h with
  | (Ok a, h') => f a h'
  | (Raise e, h') => (Raise e, h')
  end.

Definition raise {A} (e : exn) : M A := λ h, (Raise e, h).

(** [try: body except ...: handler]; [handler e = None] when no [except]
    clause matches [e]. *)
Definition try_except {A} (body : M A) (handler : exn -> option (M A)) : M A :=
  λ h,
    match body h with
    | (Ok a, h') => (Ok a, h')
    | (Raise e, h') =>
        match handler e with
        | Some k => k h'
        | None => (Raise e, h')
        end
    end.

Definition lift {A} (r : result A) : M A := λ h, (r, h).

(** A new object goes to a location the store does not use. *)
Definition alloc (ob : obj) : M loc :=
  λ h, let l := fresh (dom h) in (Ok l, <[l := ob]> h).

Definition load (v : pyval) : M obj :=
  match v with
  | VRef l => λ h,
      match h !! l with
      | Some ob => (Ok ob, h)
      | None => (Raise AttributeError, h)
      end
  | _ => raise AttributeError
  end.

(** [v.a], where [sel] selects the attribute [a]. *)
Definition getattr {A} (sel : obj -> option A) (v : pyval) : M A :=
  ob ← load v;
  match sel ob with
  | Some a => mret a
  | None => raise AttributeError
  end.

Definition store (l : loc) (ob : obj) : M unit :=
  λ h, (Ok tt, <[l := ob]> h).

(** [self.a = ...], where [upd] assigns the attribute [a]. *)
Definition setattr (upd : obj -> option obj) (self : loc) : M unit :=
  ob ← load (VRef self);
  match upd ob with
  | Some ob' => store self ob'
  | None => raise AttributeError
  end.

(** The value of an expression that has to be a number. *)
Definition as_num (v : pyval) : M num :=
  match v with
  | VNum n => mret n
  | _ => raise TypeError
  end.

(** Attribute selectors and updates. *)
Definition attr_o (ob : obj) : option num :=
  match ob with OQuaternion q => o q | _ => None end.
Definition attr_i (ob : obj) : option num :=
  match ob with OQuaternion q => i q | _ => None end.
Definition attr_j (ob : obj) : option num :=
  match ob with OQuaternion q => j q | _ => None end.
Definition attr_k (ob : obj) : option num :=
  match ob with OQuaternion q => k q | _ => None end.

Definition set_o (v : num) (ob : obj) : option obj :=
  match ob with
  | OQuaternion q => Some (OQuaternion {| o := Some v; i := i q; j := j q; k := k q |})
  | _ => None
  end.
Definition set_i (v : num) (ob : obj) : option obj :=
  match ob with
  | OQuaternion q => Some (OQuaternion {| o := o q; i := Some v; j := j q; k := k q |})
  | _ => None
  end.
Definition set_j (v : num) (ob : obj) : option obj :=
  match ob with
  | OQuaternion q => Some (OQuaternion {| o := o q; i := i q; j := Some v; k := k q |})
  | _ => None
  end.
Definition set_k (v : num) (ob : obj) : option obj :=
  match ob with
  | OQuaternion q => Some (OQuaternion {| o := o q; i := i q; j := j q; k := Some v |})
  | _ => None
  end.

Definition attr_x (ob : obj) : option num :=
  match ob with OPoint3D p => x p | _ => None end.
Definition attr_y (ob : obj) : option num :=
  match ob with OPoint3D p => y p | _ => None end.
Definition attr_z (ob : obj) : option num :=
  match ob with OPoint3D p => z p | _ => None end.

Definition set_x (v : num) (ob : obj) : option obj :=
  match ob with
  | OPoint3D p => Some (OPoint3D {| x := Some v; y := y p; z := z p |})
  | _ => None
  end.
Definition set_y (v : num) (ob : obj) : option obj :=
  match ob with
  | OPoint3D p => Some (OPoint3D {| x := x p; y := Some v; z := z p |})
  | _ => None
  end.
Definition set_z (v : num) (ob : obj) : option obj :=
  match ob with
  | OPoint3D p => Some (OPoint3D {| x := x p; y := y p; z := Some v |})
  | _ => None
  end.

Definition attr__r (ob : obj) : option loc :=
  match ob with ORotation r => __r r | _ => None end.
Definition attr__theta (ob : obj) : option num :=
  match ob with ORotation r => __theta r | _ => None end.
Definition attr__q (ob : obj) : option loc :=
  match ob with ORotation r => __q r | _ => None end.

Definition set__r (v : loc) (ob : obj) : option obj :=
  match ob with
  | ORotation r => Some (ORotation {| __r := Some v; __theta := __theta r; __q := __q r |})
  | _ => None
  end.
Definition set__theta (v : num) (ob : obj) : option obj :=
  match ob with
  | ORotation r => Some (ORotation {| __r := __r r; __theta := Some v; __q := __q r |})
  | _ => None
  end.
Definition set__q (v : loc) (ob : obj) : option obj :=
  match ob with
  | ORotation r => Some (ORotation {| __r := __r r; __theta := __theta r; __q := Some v |})
  | _ => None
  end.

End Py.

Import Py.

Declare Scope num_scope.
Delimit Scope num_scope with num.
Bind Scope num_scope with num.
Infix "+" := add : num_scope.
Infix "-" := sub : num_scope.
Infix "*" := mul : num_scope.
Notation "- a" := (neg a) : num_scope.

(** The functions of Python's [math] module the library calls. *)
Module math.

(** [math.sqrt] converts its argument to a float and raises [ValueError]
    below zero. *)
Definition sqrt (a : num) : M num :=
  if Rlt_dec (val a) 0 then raise ValueError
  else mret (PFloat (R_sqrt.sqrt (val a))).

Definition sin (a : num) : num := PFloat (Rtrigo_def.sin (val a)).
Definition cos (a : num) : num := PFloat (Rtrigo_def.cos (val a)).
Definition pi : num := PFloat PI.

End math.

(** ** instance_checker.py *)

Module InstanceCheck.

(** [isinstance(n, float) or isinstance(n, int)] *)
Definition isFloat (n : pyval) : bool :=
  match n with
  | VNum _ => true
  | _ => false
  end.

End InstanceCheck.

(** ** quaternion.py *)

Module Quaternion.

(** Tolerance for determination whether a number is "close enough" to
    zero. *)
Definition eps : num := PFloat 1e-12.

(** [isinstance(q, Quaternion)] *)
Definition isQuaternion (q : pyval) : M bool :=
  λ h,
    (Ok match q with
        | VRef l => match h !! l with Some (OQuaternion _) => true | _ => false end
        | _ => false
        end, h).

Definition setQ (self : loc) (o i j k : pyval) : M pyval :=
  isq ← isQuaternion o;
  if isq : bool then
    v ← getattr attr_o o; setattr (set_o v) self;;
    v ← getattr attr_i o; setattr (set_i v) self;;
    v ← getattr attr_j o; setattr (set_j v) self;;
    v ← getattr attr_k o; setattr (set_k v) self;;
    mret VNone
  else if negb (InstanceCheck.isFloat o && InstanceCheck.isFloat i &&
                InstanceCheck.isFloat j && InstanceCheck.isFloat k) then
    raise (QuaternionException "Invalid input arguments")
  else
    v ← as_num o; setattr (set_o v) self;;
    v ← as_num i; setattr (set_i v) self;;
    v ← as_num j; setattr (set_j v) self;;
    v ← as_num k; setattr (set_k v) self;;
    mret (VRef self).

Definition __init__ (self : loc) (o i j k : pyval) : M unit :=
  setQ self o i j k;; mret tt.

(** The call [Quaternion(o, i, j, k)]: a new instance without
    attributes, initialised by [__init__]. *)
Definition new (o i j k : pyval) : M loc :=
  self ← alloc (OQuaternion {| o := None; i := None; j := None; k := None |});
  __init__ self o i j k;;
  mret self.

Definition getScalar (self : loc) : M num := getattr attr_o (VRef self).
Definition getI (self : loc) : M num := getattr attr_i (VRef self).
Definition getJ (self : loc) : M num := getattr attr_j (VRef self).
Definition getK (self : loc) : M num := getattr attr_k (VRef self).

Definition setScalar (self : loc) (o : pyval) : M loc :=
  if negb (InstanceCheck.isFloat o) then
    raise (QuaternionException "Invalid input argument")
  else
    v ← as_num o; setattr (set_o v) self;;
    mret self.

Definition setI (self : loc) (i : pyval) : M loc :=
  if negb (InstanceCheck.isFloat i) then
    raise (QuaternionException "Invalid input argument")
  else
    v ← as_num i; setattr (set_i v) self;;
    mret self.

Definition setJ (self : loc) (j : pyval) : M loc :=
  if negb (InstanceCheck.isFloat j) then
    raise (QuaternionException "Invalid input argument")
  else
    v ← as_num j; setattr (set_j v) self;;
    mret self.

Definition setK (self : loc) (k : pyval) : M loc :=
  if negb (InstanceCheck.isFloat k) then
    raise (QuaternionException "Invalid input argument")
  else
    v ← as_num k; setattr (set_k v) self;;
    mret self.

(** The values of [q.o], [q.i], [q.j] and [q.k], read in this order. *)
Definition components (q : pyval) : M (num * num * num * num) :=
  a ← getattr attr_o q;
  b ← getattr attr_i q;
  c ← getattr attr_j q;
  d ← getattr attr_k q;
  mret (a, b, c, d).

Definition __add__ (self : loc) (q : pyval) : M loc :=
  isq ← isQuaternion q;
  if isq : bool then
    '(so, si, sj, sk) ← components (VRef self);
    '(qo, qi, qj, qk) ← components q;
    new (VNum (so + qo)) (VNum (si + qi)) (VNum (sj + qj)) (VNum (sk + qk))
  else if InstanceCheck.isFloat q then
    '(so, si, sj, sk) ← components (VRef self);
    q ← as_num q;
    new (VNum (so + q)) (VNum si) (VNum sj) (VNum sk)
  else
    raise (QuaternionException "Input must be a quaternion or a float").

Definition __sub__ (self : loc) (q : pyval) : M loc :=
  isq ← isQuaternion q;
  if isq : bool then
    '(so, si, sj, sk) ← components (VRef self);
    '(qo, qi, qj, qk) ← components q;
    new (VNum (so - qo)) (VNum (si - qi)) (VNum (sj - qj)) (VNum (sk - qk))
  else if InstanceCheck.isFloat q then
    '(so, si, sj, sk) ← components (VRef self);
    q ← as_num q;
    new (VNum (so - q)) (VNum si) (VNum sj) (VNum sk)
  else
    raise (QuaternionException "Input must be a quaternion or a float").

Definition __mul__ (self : loc) (q : pyval) : M loc :=
  isq ← isQuaternion q;
  if isq : bool then
    '(so, si, sj, sk) ← components (VRef self);
    '(qo, qi, qj, qk) ← components q;
    new (VNum (so * qo - si * qi - sj * qj - sk * qk))
        (VNum (so * qi + si * qo + sj * qk - sk * qj))
        (VNum (so * qj - si * qk + sj * qo + sk * qi))
        (VNum (so * qk + si * qj - sj * qi + sk * qo))
  else if InstanceCheck.isFloat q then
    '(so, si, sj, sk) ← components (VRef self);
    q ← as_num q;
    new (VNum (so * q)) (VNum (si * q)) (VNum (sj * q)) (VNum (sk * q))
  else
    raise (QuaternionException "Input must be a quaternion or a float").

Definition __iadd__ (self : loc) (q : pyval) : M loc :=
  isq ← isQuaternion q;
  (if isq : bool then
    a ← getattr attr_o (VRef self); b ← getattr attr_o q; setattr (set_o (a + b)) self;;
    a ← getattr attr_i (VRef self); b ← getattr attr_i q; setattr (set_i (a + b)) self;;
    a ← getattr attr_j (VRef self); b ← getattr attr_j q; setattr (set_j (a + b)) self;;
    a ← getattr attr_k (VRef self); b ← getattr attr_k q; setattr (set_k (a + b)) self
  else if InstanceCheck.isFloat q then
    a ← getattr attr_o (VRef self); b ← as_num q; setattr (set_o (a + b)) self
  else
    raise (QuaternionException "Input must be a quaternion or a float"));;
  mret self.

Definition __isub__ (self : loc) (q : pyval) : M loc :=
  isq ← isQuaternion q;
  (if isq : bool then
    a ← getattr attr_o (VRef self); b ← getattr attr_o q; setattr (set_o (a - b)) self;;
    a ← getattr attr_i (VRef self); b ← getattr attr_i q; setattr (set_i (a - b)) self;;
    a ← getattr attr_j (VRef self); b ← getattr attr_j q; setattr (set_j (a - b)) self;;
    a ← getattr attr_k (VRef self); b ← getattr attr_k q; setattr (set_k (a - b)) self
  else if InstanceCheck.isFloat q then
    a ← getattr attr_o (VRef self); b ← as_num q; setattr (set_o (a - b)) self
  else
    raise (QuaternionException "Input must be a quaternion or a float"));;
  mret self.

(** In the quaternion branch the four right-hand sides are evaluated
    before the first attribute is assigned (a tuple assignment). *)
Definition __imul__ (self : loc) (q : pyval) : M loc :=
  isq ← isQuaternion q;
  (if isq : bool then
    '(so, si, sj, sk) ← components (VRef self);
    '(qo, qi, qj, qk) ← components q;
    let t := (so * qo - si * qi - sj * qj - sk * qk,
              so * qi + si * qo + sj * qk - sk * qj,
              so * qj - si * qk + sj * qo + sk * qi,
              so * qk + si * qj - sj * qi + sk * qo)%num in
    let '(to, ti, tj, tk) := t in
    setattr (set_o to) self;;
    setattr (set_i ti) self;;
    setattr (set_j tj) self;;
    setattr (set_k tk) self
  else if InstanceCheck.isFloat q then
    a ← getattr attr_o (VRef self); b ← as_num q; setattr (set_o (a * b)) self;;
    a ← getattr attr_i (VRef self); b ← as_num q; setattr (set_i (a * b)) self;;
    a ← getattr attr_j (VRef self); b ← as_num q; setattr (set_j (a * b)) self;;
    a ← getattr attr_k (VRef self); b ← as_num q; setattr (set_k (a * b)) self
  else
    raise (QuaternionException "Input must be a quaternion or a float"));;
  mret self.

Definition __neg__ (self : loc) : M loc :=
  '(so, si, sj, sk) ← components (VRef self);
  new (VNum (- so)) (VNum (- si)) (VNum (- sj)) (VNum (- sk)).

Definition conj (self : loc) : M loc :=
  '(so, si, sj, sk) ← components (VRef self);
  new (VNum so) (VNum (- si)) (VNum (- sj)) (VNum (- sk)).

Definition __sqsum (self : loc) : M num :=
  '(so, si, sj, sk) ← components (VRef self);
  mret (so * so + si * si + sj * sj + sk * sk)%num.

Definition norm (self : loc) : M num :=
  s ← __sqsum self;
  math.sqrt s.

Definition reciprocal (self : loc) : M loc :=
  nsq ← __sqsum self;
  if ltb nsq eps then
    raise (QuaternionException "Reciprocal of a zero-quaternion does not exist")
  else
    a ← getattr attr_o (VRef self); a ← lift (div a nsq);
    b ← getattr attr_i (VRef self); b ← lift (div (- b) nsq);
    c ← getattr attr_j (VRef self); c ← lift (div (- c) nsq);
    d ← getattr attr_k (VRef self); d ← lift (div (- d) nsq);
    new (VNum a) (VNum b) (VNum c) (VNum d).

Definition unit (self : loc) : M loc :=
  n ← norm self;
  if ltb n eps then
    raise (QuaternionException "Cannot normalize a zero-quaternion")
  else
    a ← getattr attr_o (VRef self); a ← lift (div a n);
    b ← getattr attr_i (VRef self); b ← lift (div b n);
    c ← getattr attr_j (VRef self); c ← lift (div c n);
    d ← getattr attr_k (VRef self); d ← lift (div d n);
    new (VNum a) (VNum b) (VNum c) (VNum d).

End Quaternion.

(** ** rotation.py *)

Module Point3D.

(** [isinstance(p, Point3D)] *)
Definition isPoint3D (p : pyval) : M bool :=
  λ h,
    (Ok match p with
        | VRef l => match h !! l with Some (OPoint3D _) => true | _ => false end
        | _ => false
        end, h).

Definition setPoint (self : loc) (p : pyval) : M unit :=
  isp ← isPoint3D p;
  if isp : bool then
    v ← getattr attr_x p; setattr (set_x v) self;;
    v ← getattr attr_y p; setattr (set_y v) self;;
    v ← getattr attr_z p; setattr (set_z v) self
  else
    raise (PointException "Invalid input argument").

Definition __init__ (self : loc) (x y z : pyval) : M unit :=
  if InstanceCheck.isFloat x && InstanceCheck.isFloat y && InstanceCheck.isFloat z then
    v ← as_num x; setattr (set_x v) self;;
    v ← as_num y; setattr (set_y v) self;;
    v ← as_num z; setattr (set_z v) self
  else
    isp ← isPoint3D x;
    if isp : bool then setPoint self x
    else raise (PointException "Invalid input arguments").

(** The call [Point3D(x, y, z)]. *)
Definition new (x y z : pyval) : M loc :=
  self ← alloc (OPoint3D {| x := None; y := None; z := None |});
  __init__ self x y z;;
  mret self.

Definition getX (self : loc) : M num := getattr attr_x (VRef self).
Definition getY (self : loc) : M num := getattr attr_y (VRef self).
Definition getZ (self : loc) : M num := getattr attr_z (VRef self).

Definition setX (self : loc) (x : pyval) : M unit :=
  if InstanceCheck.isFloat x then v ← as_num x; setattr (set_x v) self
  else raise (PointException "Invalid input argument").

Definition setY (self : loc) (y : pyval) : M unit :=
  if InstanceCheck.isFloat y then v ← as_num y; setattr (set_y v) self
  else raise (PointException "Invalid input argument").

Definition setZ (self : loc) (z : pyval) : M unit :=
  if InstanceCheck.isFloat z then v ← as_num z; setattr (set_z v) self
  else raise (PointException "Invalid input argument").

Definition sqSum (self : loc) : M num :=
  a ← getattr attr_x (VRef self);
  b ← getattr attr_y (VRef self);
  c ← getattr attr_z (VRef self);
  mret (a * a + b * b + c * c)%num.

End Point3D.

Module Rotation.

(** Private method, called after the axis or the angle is modified. *)
Definition __update (self : loc) : M unit :=
  try_except
    ((* self.__q = Quaternion(0.0, self.__r.x, self.__r.y, self.__r.z).unit() *)
     r ← getattr attr__r (VRef self); rx ← getattr attr_x (VRef r);
     r ← getattr attr__r (VRef self); ry ← getattr attr_y (VRef r);
     r ← getattr attr__r (VRef self); rz ← getattr attr_z (VRef r);
     p ← Quaternion.new (VNum (PFloat 0)) (VNum rx) (VNum ry) (VNum rz);
     u ← Quaternion.unit p;
     setattr (set__q u) self;;
     (* self.__r.x = self.__q.getI(), and the same for y and z *)
     q ← getattr attr__q (VRef self); v ← Quaternion.getI q;
     r ← getattr attr__r (VRef self); setattr (set_x v) r;;
     q ← getattr attr__q (VRef self); v ← Quaternion.getJ q;
     r ← getattr attr__r (VRef self); setattr (set_y v) r;;
     q ← getattr attr__q (VRef self); v ← Quaternion.getK q;
     r ← getattr attr__r (VRef self); setattr (set_z v) r;;
     (* self.__q *= math.sin(0.5*self.__theta) *)
     q ← getattr attr__q (VRef self); th ← getattr attr__theta (VRef self);
     q ← Quaternion.__imul__ q (VNum (math.sin (PFloat 0.5 * th)));
     setattr (set__q q) self;;
     (* self.__q += math.cos(0.5*self.__theta) *)
     q ← getattr attr__q (VRef self); th ← getattr attr__theta (VRef self);
     q ← Quaternion.__iadd__ q (VNum (math.cos (PFloat 0.5 * th)));
     setattr (set__q q) self)
    (λ qex,
       match qex with
       | QuaternionException _ =>
           Some (raise (RotationException
                          (format "Could not generate a rotation quaternion: '{0}'"
                                  (IException_str qex))))
       | _ => None
       end).

Definition setAxis (self : loc) (rx ry rz : pyval) : M unit :=
  try_except
    (r ← Point3D.new rx ry rz; setattr (set__r r) self)
    (λ e,
       match e with
       | PointException _ => Some (raise (RotationException "Invalid input argument"))
       | _ => None
       end);;
  __update self.

Definition setAngle (self : loc) (angle : pyval) : M unit :=
  if negb (InstanceCheck.isFloat angle) then
    raise (RotationException "Angle must be float value")
  else
    a ← as_num angle; setattr (set__theta a) self;;
    __update self.

Definition __init__ (self : loc) (rx ry rz angle : pyval) : M unit :=
  if negb (InstanceCheck.isFloat angle) then
    raise (RotationException "Angle must be a float value")
  else
    a ← as_num angle; setattr (set__theta a) self;;
    setAxis self rx ry rz.

(** The call [Rotation(rx, ry, rz, angle)]. *)
Definition new (rx ry rz angle : pyval) : M loc :=
  self ← alloc (ORotation {| __r := None; __theta := None; __q := None |});
  __init__ self rx ry rz angle;;
  mret self.

Definition getAxis (self : loc) (factor : pyval) : M loc :=
  r ← getattr attr__r (VRef self); a ← getattr attr_x (VRef r); f ← as_num factor;
  let vx := (a * f)%num in
  r ← getattr attr__r (VRef self); a ← getattr attr_y (VRef r); f ← as_num factor;
  let vy := (a * f)%num in
  r ← getattr attr__r (VRef self); a ← getattr attr_z (VRef r); f ← as_num factor;
  let vz := (a * f)%num in
  Point3D.new (VNum vx) (VNum vy) (VNum vz).

Definition getAngle (self : loc) : M num := getattr attr__theta (VRef self).

Definition getRotationQuaternion (self : loc) : M loc :=
  getattr attr__q (VRef self).

Definition rotate (self : loc) (p : pyval) : M loc :=
  isp ← Point3D.isPoint3D p;
  if negb isp then
    raise (RotationException "Input must be an instance of Point3D")
  else
    a ← getattr attr_x p; b ← getattr attr_y p; c ← getattr attr_z p;
    pq ← Quaternion.new (VNum (PInt 0)) (VNum a) (VNum b) (VNum c);
    (* pqr = self.__q * pq * self.__q.conj() *)
    q ← getattr attr__q (VRef self);
    t ← Quaternion.__mul__ q (VRef pq);
    q ← getattr attr__q (VRef self);
    qc ← Quaternion.conj q;
    pqr ← Quaternion.__mul__ t (VRef qc);
    a ← Quaternion.getI pqr; b ← Quaternion.getJ pqr; c ← Quaternion.getK pqr;
    Point3D.new (VNum a) (VNum b) (VNum c).

(** [v * f] for a float [f]: the product of two numbers, [v.__mul__(f)]
    when [v] is a quaternion, and [TypeError] for the other values (a
    string cannot be multiplied by a float, the other classes have no
    [__mul__]). *)
Definition times_float (v : pyval) (f : num) : M pyval :=
  match v with
  | VNum d => mret (VNum (d * f))
  | VRef l =>
      isq ← Quaternion.isQuaternion v;
      if isq : bool then q ← Quaternion.__mul__ l (VNum f); mret (VRef q)
      else raise TypeError
  | _ => raise TypeError
  end.

(** [v / f] for a float [f]: no class of the library defines division. *)
Definition over_float (v : pyval) (f : num) : M num :=
  match v with
  | VNum d => lift (div d f)
  | _ => raise TypeError
  end.

(** [deg*math.pi/180.0] *)
Definition deg2rad (deg : pyval) : M num :=
  t ← times_float deg math.pi;
  over_float t (PFloat 180).

(** [rad*180.0/math.pi] *)
Definition rad2deg (rad : pyval) : M num :=
  t ← times_float rad (PFloat 180);
  over_float t math.pi.

End Rotation.

(** ** Views used in the statements *)

(** Instances all of whose attributes have been assigned. *)
Abbreviation Qobj a b c d :=
  (OQuaternion {| o := Some a%num; i := Some b%num; j := Some c%num;
                  k := Some d%num |}).

Abbreviation Pobj a b c :=
  (OPoint3D {| x := Some a%num; y := Some b%num; z := Some c%num |}).

Abbreviation Robj r theta q :=
  (ORotation {| __r := Some r; __theta := Some theta; __q := Some q |}).

(** The quaternion algebra of the specification, over the real numbers:
    section 3 defines it by [i² = j² = k² = -1, ij = k, jk = i, ki = j],
    section 4.1 gives the product, the conjugate and the norms, section 4.3
    the rotation quaternion of an axis and an angle. *)
Module Algebra.

Record quat := Quat { re : R; im_i : R; im_j : R; im_k : R }.

Definition hamilton (p q : quat) : quat :=
  Quat (re p * re q - im_i p * im_i q - im_j p * im_j q - im_k p * im_k q)
       (re p * im_i q + im_i p * re q + im_j p * im_k q - im_k p * im_j q)
       (re p * im_j q - im_i p * im_k q + im_j p * re q + im_k p * im_i q)
       (re p * im_k q + im_i p * im_j q - im_j p * im_i q + im_k p * re q).

Definition scale (q : quat) (s : R) : quat :=
  Quat (re q * s) (im_i q * s) (im_j q * s) (im_k q * s).

Definition conj (q : quat) : quat :=
  Quat (re q) (- im_i q) (- im_j q) (- im_k q).

Definition sqnorm (q : quat) : R :=
  re q * re q + im_i q * im_i q + im_j q * im_j q + im_k q * im_k q.

Definition norm (q : quat) : R := sqrt (sqnorm q).

Definition one : quat := Quat 1 0 0 0.

(** A point or vector as the pure quaternion [0 + x·i + y·j + z·k]. *)
Definition pure (vx vy vz : R) : quat := Quat 0 vx vy vz.

(** [cos(θ/2) + sin(θ/2)·(ux·i + uy·j + uz·k)] *)
Definition axis_angle (ux uy uz theta : R) : quat :=
  Quat (cos (theta / 2))
       (sin (theta / 2) * ux) (sin (theta / 2) * uy) (sin (theta / 2) * uz).

End Algebra.

(** The quaternion over the reals that four Python numbers denote. *)
Definition qval (a b c d : num) : Algebra.quat :=
  Algebra.Quat (val a) (val b) (val c) (val d).

(** The store [h'] left by the re-derivation of the state of the rotation
    [self], run in [h] with the axis [(a, b, c)] stored in the point [lr]
    and the angle [theta]: the axis has been divided by its norm, the
    rotation quaternion is a new object, the unit pure quaternion of the
    axis scaled by [sin(0.5*theta)] with [cos(0.5*theta)] added to its
    scalar component, and no other object of [h] has changed. *)
Definition rederived (h h' : heap) (self lr : loc) (a b c theta : num) : Prop :=
  let n := Algebra.norm (qval (PFloat 0) a b c) in
  let s := math.sin (PFloat 0.5 * theta) in
  let co := math.cos (PFloat 0.5 * theta) in
  exists lq,
    h !! lq = None /\
    h' !! self = Some (Robj lr theta lq) /\
    h' !! lr = Some (Pobj (PFloat (val a / n)) (PFloat (val b / n)) (PFloat (val c / n))) /\
    h' !! lq = Some (Qobj (PFloat (0 / n) * s + co) (PFloat (val a / n) * s)
                          (PFloat (val b / n) * s) (PFloat (val c / n) * s)) /\
    (forall l ob, h !! l = Some ob -> l ≠ self -> l ≠ lr -> h' !! l = Some ob).

(** The invariant of section 3: the stored axis is a unit vector and the
    stored quaternion is the unit quaternion [cos(θ/2) + sin(θ/2)·axis] of
    the stored axis and angle. *)
Definition rotation_inv (h : heap) (self : loc) : Prop :=
  exists lr lq ux uy uz theta qo qi qj qk,
    h !! self = Some (Robj lr theta lq) /\
    h !! lr = Some (Pobj ux uy uz) /\
    h !! lq = Some (Qobj qo qi qj qk) /\
    (val ux * val ux + val uy * val uy + val uz * val uz = 1)%R /\
    qval qo qi qj qk = Algebra.axis_angle (val ux) (val uy) (val uz) (val theta) /\
    Algebra.norm (qval qo qi qj qk) = 1%R.

(** The invariant check of section 8, as a caller runs it:
    [self.getRotationQuaternion().norm()] and [self.getAxis().sqSum()]. *)
Definition check_norm (self : loc) : M num :=
  q ← Rotation.getRotationQuaternion self;
  Quaternion.norm q.

Definition check_axis (self : loc) : M num :=
  p ← Rotation.getAxis self (VNum (PFloat 1));
  Point3D.sqSum p.

(** What a caller observes on a rotation in a consistent state. *)
Definition consistent (h : heap) (self : loc) : Prop :=
  rotation_inv h self /\
  check_norm self h = (Ok (PFloat 1), h) /\
  exists s h', check_axis self h = (Ok s, h') /\ val s = 1%R.

(** ** rotation_test.py *)

(** The first two scenarios of the test script, with the point each one
    prints: [p = Point3D(1,1,1)], [rot = Rotation(rz=1, angle=math.pi/2)],
    [rot.rotate(p)], and then [rot.setAxis(0, 2, 0)], [rot.rotate(p)]. *)
Definition rotation_test_z : M (num * num * num) :=
  p ← Point3D.new (VNum (PInt 1)) (VNum (PInt 1)) (VNum (PInt 1));
  rot ← Rotation.new (VNum (PFloat 0)) (VNum (PFloat 0)) (VNum (PInt 1))
                     (VNum (PFloat (PI / 2)));
  tp ← Rotation.rotate rot (VRef p);
  a ← Point3D.getX tp; b ← Point3D.getY tp; c ← Point3D.getZ tp;
  mret (a, b, c).

Definition rotation_test_y : M (num * num * num) :=
  p ← Point3D.new (VNum (PInt 1)) (VNum (PInt 1)) (VNum (PInt 1));
  rot ← Rotation.new (VNum (PFloat 0)) (VNum (PFloat 0)) (VNum (PInt 1))
                     (VNum (PFloat (PI / 2)));
  Rotation.setAxis rot (VNum (PInt 0)) (VNum (PInt 2)) (VNum (PInt 0));;
  tp ← Rotation.rotate rot (VRef p);
  a ← Point3D.getX tp; b ← Point3D.getY tp; c ← Point3D.getZ tp;
  mret (a, b, c).

(** * Properties *)

(** ** Running computations *)

Lemma bind_ok {A B} (m : M A) (f : A -> M B) h a h1 r :
  m h = (Ok a, h1) -> f a h1 = r -> (m ≫= f) h = r.
Proof. intros Hm Hf. unfold mbind, M_bind. by rewrite Hm. Qed.

Lemma bind_raise {A B} (m : M A) (f : A -> M B) h e h1 :
  m h = (Raise e, h1) -> (m ≫= f) h = (Raise e, h1).
Proof. intros Hm. unfold mbind, M_bind. by rewrite Hm. Qed.

Lemma run_getattr {A} (sel : obj -> option A) h l ob a :
  h !! l = Some ob -> sel ob = Some a -> getattr sel (VRef l) h = (Ok a, h).
Proof.
  intros Hl Hs. unfold getattr. eapply bind_ok.
  - unfold load. by rewrite Hl.
  - by rewrite Hs.
Qed.

Lemma run_setattr upd h l ob ob' :
  h !! l = Some ob -> upd ob = Some ob' -> setattr upd l h = (Ok tt, <[l := ob']> h).
Proof.
  intros Hl Hu. unfold setattr. eapply bind_ok.
  - unfold load. by rewrite Hl.
  - by rewrite Hu.
Qed.

Lemma fresh_None (h : heap) : h !! fresh (dom h) = None.
Proof. apply not_elem_of_dom, is_fresh. Qed.

Lemma fresh_ne (h : heap) l ob : h !! l = Some ob -> fresh (dom h) ≠ l.
Proof. intros Hl Heq. rewrite <- Heq, fresh_None in Hl. discriminate. Qed.

Lemma ne_fresh (h : heap) l ob : h !! l = Some ob -> l ≠ fresh (dom h).
Proof. intros Hl Heq. by apply (fresh_ne h l ob). Qed.

Lemma run_alloc ob (h : heap) :
  alloc ob h = (Ok (fresh (dom h)), <[fresh (dom h) := ob]> h).
Proof. reflexivity. Qed.

Lemma run_isQuaternion_ref h l q :
  h !! l = Some (OQuaternion q) -> Quaternion.isQuaternion (VRef l) h = (Ok true, h).
Proof. intros Hl. unfold Quaternion.isQuaternion. by rewrite Hl. Qed.

Lemma run_isPoint3D_ref h l p :
  h !! l = Some (OPoint3D p) -> Point3D.isPoint3D (VRef l) h = (Ok true, h).
Proof. intros Hl. unfold Point3D.isPoint3D. by rewrite Hl. Qed.

(** Looking up a location in a store built by assignments. *)
Ltac lookup :=
  repeat first
    [ rewrite lookup_insert_eq
    | rewrite lookup_insert_ne
        by first [ congruence | eapply fresh_ne; lookup | eapply ne_fresh; lookup ] ];
  first [ eassumption | reflexivity ].

(** One statement that returns. *)
Ltac prim :=
  first
    [ eapply run_getattr;
        [lookup | first [reflexivity | cbn [attr__r attr__theta attr__q]; eassumption]]
    | eapply run_setattr; [lookup | reflexivity]
    | eapply run_isQuaternion_ref; lookup
    | eapply run_isPoint3D_ref; lookup
    | reflexivity ].

(** A sequence of statements that return. *)
Ltac run_with call :=
  cbn [negb andb InstanceCheck.isFloat];
  cbv beta iota zeta;
  lazymatch goal with
  | |- (_ ≫= _) _ = _ =>
      eapply bind_ok; [ run_with call | run_with call ]
  | |- _ => first [ call | prim ]
  end.

Ltac run := run_with fail.

Ltac tidy := rewrite ?insert_insert_eq; try reflexivity.

Lemma run_new_Quaternion h a b c d :
  Quaternion.new (VNum a) (VNum b) (VNum c) (VNum d) h
  = (Ok (fresh (dom h)), <[fresh (dom h) := Qobj a b c d]> h).
Proof.
  unfold Quaternion.new, Quaternion.__init__, Quaternion.setQ.
  etransitivity; [run | tidy].
Qed.

Lemma run_components h l a b c d :
  h !! l = Some (Qobj a b c d) ->
  Quaternion.components (VRef l) h = (Ok (a, b, c, d), h).
Proof. intros Hl. unfold Quaternion.components. run. Qed.

(** Calls whose effect is known. *)
Ltac qcall :=
  first
    [ eapply run_components; lookup
    | eapply run_new_Quaternion ].

Lemma run_mul_quat h l1 l2 a1 b1 c1 d1 a2 b2 c2 d2 :
  h !! l1 = Some (Qobj a1 b1 c1 d1) ->
  h !! l2 = Some (Qobj a2 b2 c2 d2) ->
  Quaternion.__mul__ l1 (VRef l2) h
  = (Ok (fresh (dom h)),
     <[fresh (dom h) :=
         Qobj (a1 * a2 - b1 * b2 - c1 * c2 - d1 * d2)
              (a1 * b2 + b1 * a2 + c1 * d2 - d1 * c2)
              (a1 * c2 - b1 * d2 + c1 * a2 + d1 * b2)
              (a1 * d2 + b1 * c2 - c1 * b2 + d1 * a2)]> h).
Proof. intros H1 H2. unfold Quaternion.__mul__. run_with qcall. Qed.

Lemma run_mul_scalar h l1 a1 b1 c1 d1 s :
  h !! l1 = Some (Qobj a1 b1 c1 d1) ->
  Quaternion.__mul__ l1 (VNum s) h
  = (Ok (fresh (dom h)),
     <[fresh (dom h) := Qobj (a1 * s) (b1 * s) (c1 * s) (d1 * s)]> h).
Proof. intros H1. unfold Quaternion.__mul__. run_with qcall. Qed.

Lemma run_imul_quat h l1 l2 a1 b1 c1 d1 a2 b2 c2 d2 :
  h !! l1 = Some (Qobj a1 b1 c1 d1) ->
  h !! l2 = Some (Qobj a2 b2 c2 d2) ->
  Quaternion.__imul__ l1 (VRef l2) h
  = (Ok l1,
     <[l1 :=
         Qobj (a1 * a2 - b1 * b2 - c1 * c2 - d1 * d2)
              (a1 * b2 + b1 * a2 + c1 * d2 - d1 * c2)
              (a1 * c2 - b1 * d2 + c1 * a2 + d1 * b2)
              (a1 * d2 + b1 * c2 - c1 * b2 + d1 * a2)]> h).
Proof.
  intros H1 H2. unfold Quaternion.__imul__.
  etransitivity; [run_with qcall | tidy].
Qed.

Lemma run_imul_scalar h l1 a1 b1 c1 d1 s :
  h !! l1 = Some (Qobj a1 b1 c1 d1) ->
  Quaternion.__imul__ l1 (VNum s) h
  = (Ok l1, <[l1 := Qobj (a1 * s) (b1 * s) (c1 * s) (d1 * s)]> h).
Proof.
  intros H1. unfold Quaternion.__imul__.
  etransitivity; [run_with qcall | tidy].
Qed.

Lemma run_iadd_scalar h l1 a1 b1 c1 d1 s :
  h !! l1 = Some (Qobj a1 b1 c1 d1) ->
  Quaternion.__iadd__ l1 (VNum s) h
  = (Ok l1, <[l1 := Qobj (a1 + s) b1 c1 d1]> h).
Proof.
  intros H1. unfold Quaternion.__iadd__.
  etransitivity; [run_with qcall | tidy].
Qed.

Lemma run_conj h l a b c d :
  h !! l = Some (Qobj a b c d) ->
  Quaternion.conj l h
  = (Ok (fresh (dom h)), <[fresh (dom h) := Qobj a (- b) (- c) (- d)]> h).
Proof. intros H1. unfold Quaternion.conj. run_with qcall. Qed.

Lemma run_sqsum h l a b c d :
  h !! l = Some (Qobj a b c d) ->
  Quaternion.__sqsum l h = (Ok (a * a + b * b + c * c + d * d)%num, h).
Proof. intros H1. unfold Quaternion.__sqsum. run_with qcall. Qed.

(** ** Numbers *)

Lemma val_add a b : val (a + b) = (val a + val b)%R.
Proof. destruct a, b; cbn; try reflexivity. apply plus_IZR. Qed.

Lemma val_sub a b : val (a - b) = (val a - val b)%R.
Proof. destruct a, b; cbn; try reflexivity. apply minus_IZR. Qed.

Lemma val_mul a b : val (a * b) = (val a * val b)%R.
Proof. destruct a, b; cbn; try reflexivity. apply mult_IZR. Qed.

Lemma val_neg a : val (- a) = (- val a)%R.
Proof. destruct a; cbn; try reflexivity. apply opp_IZR. Qed.

Ltac vals :=
  repeat first [rewrite val_add | rewrite val_sub | rewrite val_mul | rewrite val_neg].

Lemma ltb_lt a b : ltb a b = true <-> (val a < val b)%R.
Proof. unfold ltb. destruct (Rlt_dec (val a) (val b)); split; auto; discriminate. Qed.

Lemma ltb_ge a b : ltb a b = false <-> (val b <= val a)%R.
Proof.
  unfold ltb. destruct (Rlt_dec (val a) (val b)); split; auto; try lra; discriminate.
Qed.

Lemma val_eps : val Quaternion.eps = 1e-12%R.
Proof. reflexivity. Qed.

Lemma eps_pos : (0 < val Quaternion.eps)%R.
Proof. rewrite val_eps. lra. Qed.

(** Division by a float that is not zero is division of real numbers. *)
Lemma div_float a n : n ≠ 0%R -> div a (PFloat n) = Ok (PFloat (val a / n)).
Proof.
  intros Hn. unfold div. cbn [val].
  destruct a; destruct (Req_dec_T n 0); congruence.
Qed.

(** Division of two ints is floor division. *)
Lemma div_int m n : n ≠ 0%Z -> div (PInt m) (PInt n) = Ok (PInt (m / n)).
Proof. intros Hn. unfold div. by destruct (decide (n = 0%Z)). Qed.

Lemma val_sqsum a b c d :
  val (a * a + b * b + c * c + d * d) = Algebra.sqnorm (qval a b c d).
Proof. vals. reflexivity. Qed.

Lemma sqnorm_nonneg q : (0 <= Algebra.sqnorm q)%R.
Proof. unfold Algebra.sqnorm. nra. Qed.

Lemma norm_nonneg q : (0 <= Algebra.norm q)%R.
Proof. apply sqrt_pos. Qed.

Lemma run_sqrt a h :
  (0 <= val a)%R -> math.sqrt a h = (Ok (PFloat (sqrt (val a))), h).
Proof. intros Ha. unfold math.sqrt. destruct (Rlt_dec (val a) 0); [lra | reflexivity]. Qed.

Lemma run_norm h l a b c d :
  h !! l = Some (Qobj a b c d) ->
  Quaternion.norm l h = (Ok (PFloat (Algebra.norm (qval a b c d))), h).
Proof.
  intros Hl. unfold Quaternion.norm. eapply bind_ok; [by apply run_sqsum|].
  rewrite run_sqrt; rewrite val_sqsum; [reflexivity | apply sqnorm_nonneg].
Qed.

Lemma run_lift {A} (r : A) h : lift (Ok r) h = (Ok r, h).
Proof. reflexivity. Qed.

(** [unit()] on a quaternion whose norm is at least [eps]. *)
Lemma run_unit h l a b c d :
  h !! l = Some (Qobj a b c d) ->
  let n := Algebra.norm (qval a b c d) in
  (val Quaternion.eps <= n)%R ->
  Quaternion.unit l h
  = (Ok (fresh (dom h)),
     <[fresh (dom h) := Qobj (PFloat (val a / n)) (PFloat (val b / n))
                             (PFloat (val c / n)) (PFloat (val d / n))]> h).
Proof.
  intros Hl n Hn. unfold Quaternion.unit.
  eapply bind_ok; [by apply run_norm|]. fold n.
  replace (ltb (PFloat n) Quaternion.eps) with false
    by (symmetry; by apply ltb_ge).
  pose proof eps_pos.
  run_with ltac:(first [ qcall | rewrite div_float by lra; reflexivity ]).
Qed.

(** [unit()] on a quaternion whose norm is below [eps]. *)
Lemma run_unit_raise h l a b c d :
  h !! l = Some (Qobj a b c d) ->
  (Algebra.norm (qval a b c d) < val Quaternion.eps)%R ->
  Quaternion.unit l h
  = (Raise (QuaternionException "Cannot normalize a zero-quaternion"), h).
Proof.
  intros Hl Hn. unfold Quaternion.unit.
  eapply bind_ok; [by apply run_norm|].
  replace (ltb _ Quaternion.eps) with true by (symmetry; by apply ltb_lt).
  reflexivity.
Qed.

Lemma div_ok a b : val b ≠ 0%R -> exists r, div a b = Ok r.
Proof.
  intros Hb. destruct b as [n|s].
  - destruct a as [m|r].
    + exists (PInt (m / n)). apply div_int. intros ->. by apply Hb.
    + unfold div. cbn [val] in *. destruct (Req_dec_T (IZR n) 0); [done | eauto].
  - eexists. by apply div_float.
Qed.

(** [reciprocal()] on a quaternion whose squared norm is below [eps]. *)
Lemma run_reciprocal_raise h l a b c d :
  h !! l = Some (Qobj a b c d) ->
  (Algebra.sqnorm (qval a b c d) < val Quaternion.eps)%R ->
  Quaternion.reciprocal l h
  = (Raise (QuaternionException "Reciprocal of a zero-quaternion does not exist"), h).
Proof.
  intros Hl Hn. unfold Quaternion.reciprocal.
  eapply bind_ok; [by apply run_sqsum|].
  replace (ltb _ Quaternion.eps) with true
    by (symmetry; apply ltb_lt; by rewrite val_sqsum).
  reflexivity.
Qed.

(** [reciprocal()] on a quaternion whose squared norm is at least [eps]:
    each component is divided by the squared sum with Python's [/]. *)
Lemma run_reciprocal h l a b c d :
  h !! l = Some (Qobj a b c d) ->
  (val Quaternion.eps <= Algebra.sqnorm (qval a b c d))%R ->
  let nsq := (a * a + b * b + c * c + d * d)%num in
  exists a' b' c' d',
    div a nsq = Ok a' /\ div (- b) nsq = Ok b' /\
    div (- c) nsq = Ok c' /\ div (- d) nsq = Ok d' /\
    Quaternion.reciprocal l h
    = (Ok (fresh (dom h)), <[fresh (dom h) := Qobj a' b' c' d']> h).
Proof.
  intros Hl Hn nsq. pose proof eps_pos as Hpos.
  assert (Hnz : val nsq ≠ 0%R) by (unfold nsq; rewrite val_sqsum; lra).
  destruct (div_ok a nsq Hnz) as [a' Ha], (div_ok (- b) nsq Hnz) as [b' Hb],
    (div_ok (- c) nsq Hnz) as [c' Hc], (div_ok (- d) nsq Hnz) as [d' Hd].
  exists a', b', c', d'. repeat split; try done.
  unfold Quaternion.reciprocal.
  eapply bind_ok; [by apply run_sqsum|]. fold nsq.
  replace (ltb nsq Quaternion.eps) with false
    by (symmetry; apply ltb_ge; unfold nsq; by rewrite val_sqsum).
  run_with ltac:(first [ qcall
                       | rewrite Ha; reflexivity | rewrite Hb; reflexivity
                       | rewrite Hc; reflexivity | rewrite Hd; reflexivity ]).
Qed.

(** ** The quaternion algebra *)

Lemma quat_eq (p q : Algebra.quat) :
  Algebra.re p = Algebra.re q -> Algebra.im_i p = Algebra.im_i q ->
  Algebra.im_j p = Algebra.im_j q -> Algebra.im_k p = Algebra.im_k q -> p = q.
Proof. destruct p, q; cbn; congruence. Qed.

Lemma qval_hamilton a1 b1 c1 d1 a2 b2 c2 d2 :
  qval (a1 * a2 - b1 * b2 - c1 * c2 - d1 * d2)
       (a1 * b2 + b1 * a2 + c1 * d2 - d1 * c2)
       (a1 * c2 - b1 * d2 + c1 * a2 + d1 * b2)
       (a1 * d2 + b1 * c2 - c1 * b2 + d1 * a2)
  = Algebra.hamilton (qval a1 b1 c1 d1) (qval a2 b2 c2 d2).
Proof. unfold qval, Algebra.hamilton. cbn [Algebra.re Algebra.im_i Algebra.im_j Algebra.im_k]. by vals. Qed.

Lemma qval_scale a b c d s :
  qval (a * s) (b * s) (c * s) (d * s) = Algebra.scale (qval a b c d) (val s).
Proof. unfold qval, Algebra.scale. cbn [Algebra.re Algebra.im_i Algebra.im_j Algebra.im_k]. by vals. Qed.

Lemma qval_conj a b c d :
  qval a (- b) (- c) (- d) = Algebra.conj (qval a b c d).
Proof. unfold qval, Algebra.conj. cbn [Algebra.re Algebra.im_i Algebra.im_j Algebra.im_k]. by vals. Qed.

(** The conjugate divided by the squared norm is a two-sided inverse. *)
Lemma hamilton_inverse q :
  Algebra.sqnorm q ≠ 0%R ->
  let r := Algebra.scale (Algebra.conj q) (/ Algebra.sqnorm q) in
  Algebra.hamilton q r = Algebra.one /\ Algebra.hamilton r q = Algebra.one.
Proof.
  destruct q as [a b c d]. unfold Algebra.sqnorm, Algebra.hamilton, Algebra.scale,
    Algebra.conj, Algebra.one. cbn [Algebra.re Algebra.im_i Algebra.im_j Algebra.im_k].
  intros Hn. split; f_equal; field; exact Hn.
Qed.

Lemma norm_scale_unit q :
  Algebra.sqnorm q ≠ 0%R ->
  Algebra.norm (Algebra.scale q (/ Algebra.norm q)) = 1%R.
Proof.
  intros Hn. pose proof (sqnorm_nonneg q) as Hpos.
  assert (Hs : (Algebra.norm q * Algebra.norm q = Algebra.sqnorm q)%R)
    by (apply sqrt_sqrt, Hpos).
  assert (Hnn : Algebra.norm q ≠ 0%R) by (intros H0; rewrite H0 in Hs; lra).
  unfold Algebra.norm at 1.
  replace (Algebra.sqnorm (Algebra.scale q (/ Algebra.norm q))) with 1%R;
    [apply sqrt_1|].
  destruct q as [a b c d]. unfold Algebra.sqnorm, Algebra.scale in *.
  cbn [Algebra.re Algebra.im_i Algebra.im_j Algebra.im_k] in *.
  set (n := Algebra.norm _) in *.
  transitivity ((a * a + b * b + c * c + d * d) / (n * n))%R; [|field; exact Hnn].
  rewrite Hs. field. exact Hn.
Qed.

(** ** Quaternion: the component setters *)

(** C9. Each of the four component setters, called on a quaternion with a
    non-numeric argument, raises [QuaternionException] (the specification's
    InvalidArgument) and leaves the store, hence the four components of the
    receiver, as it was; called with a number it assigns its own component
    only and returns the receiver. *)
Theorem setters_validate_then_assign h self q v :
  h !! self = Some (OQuaternion q) ->
  Quaternion.setScalar self v h
  = match v with
    | VNum n => (Ok self, <[self := OQuaternion {| o := Some n; i := i q; j := j q; k := k q |}]> h)
    | _ => (Raise (QuaternionException "Invalid input argument"), h)
    end
  /\ Quaternion.setI self v h
  = match v with
    | VNum n => (Ok self, <[self := OQuaternion {| o := o q; i := Some n; j := j q; k := k q |}]> h)
    | _ => (Raise (QuaternionException "Invalid input argument"), h)
    end
  /\ Quaternion.setJ self v h
  = match v with
    | VNum n => (Ok self, <[self := OQuaternion {| o := o q; i := i q; j := Some n; k := k q |}]> h)
    | _ => (Raise (QuaternionException "Invalid input argument"), h)
    end
  /\ Quaternion.setK self v h
  = match v with
    | VNum n => (Ok self, <[self := OQuaternion {| o := o q; i := i q; j := j q; k := Some n |}]> h)
    | _ => (Raise (QuaternionException "Invalid input argument"), h)
    end.
Proof.
  intros Hself.
  unfold Quaternion.setScalar, Quaternion.setI, Quaternion.setJ, Quaternion.setK.
  destruct v; repeat split; try reflexivity; run.
Qed.

Lemma setters_validate_then_assign_witness :
  let h : heap := {[ 1%positive := Qobj (PInt 1) (PInt 2) (PInt 3) (PInt 4) ]} in
  Quaternion.setJ 1%positive (VNum (PInt 7)) h
  = (Ok 1%positive, <[1%positive := Qobj (PInt 1) (PInt 2) (PInt 7) (PInt 4)]> h)
  /\ Quaternion.setJ 1%positive (VStr "7") h
     = (Raise (QuaternionException "Invalid input argument"), h).
Proof.
  intros h.
  assert (Hself : h !! 1%positive
                  = Some (OQuaternion {| o := Some (PInt 1); i := Some (PInt 2);
                                         j := Some (PInt 3); k := Some (PInt 4) |}))
    by reflexivity.
  split.
  - exact (proj1 (proj2 (proj2
      (setters_validate_then_assign h 1%positive _ (VNum (PInt 7)) Hself)))).
  - exact (proj1 (proj2 (proj2
      (setters_validate_then_assign h 1%positive _ (VStr "7") Hself)))).
Defined.

(** ** Quaternion: multiplication *)



(** ** Quaternion: norm, unit and reciprocal *)






(** When one component at least is a float, the squared sum is a float and
    the divisions of [reciprocal()] are divisions of real numbers: the
    result is the conjugate divided by the squared norm, a two-sided
    inverse. *)
Lemma reciprocal_of_float_quaternion h l a b c d s :
  h !! l = Some (Qobj a b c d) ->
  (a * a + b * b + c * c + d * d)%num = PFloat s ->
  (val Quaternion.eps <= s)%R ->
  let q := qval a b c d in
  exists l' a' b' c' d',
    h !! l' = None /\
    Quaternion.reciprocal l h = (Ok l', <[l' := Qobj a' b' c' d']> h) /\
    qval a' b' c' d' = Algebra.scale (Algebra.conj q) (/ Algebra.sqnorm q) /\
    Algebra.hamilton q (qval a' b' c' d') = Algebra.one /\
    Algebra.hamilton (qval a' b' c' d') q = Algebra.one.
Proof.
  intros Hl Hs Hn q. pose proof eps_pos as Hpos.
  assert (Hsq : Algebra.sqnorm q = s) by (unfold q; by rewrite <- val_sqsum, Hs).
  assert (Hnz : Algebra.sqnorm q ≠ 0%R) by lra.
  destruct (run_reciprocal h l a b c d Hl) as (a' & b' & c' & d' & Ha & Hb & Hc & Hd & Hrun);
    [fold q; lra|].
  rewrite Hs, div_float in Ha, Hb, Hc, Hd by lra.
  injection Ha as <-. injection Hb as <-. injection Hc as <-. injection Hd as <-.
  exists (fresh (dom h)). eexists _, _, _, _.
  split; [apply fresh_None|]. split; [exact Hrun|].
  assert (Hr : qval (PFloat (val a / s)) (PFloat (val (- b) / s))
                    (PFloat (val (- c) / s)) (PFloat (val (- d) / s))
               = Algebra.scale (Algebra.conj q) (/ Algebra.sqnorm q)).
  { rewrite Hsq. unfold q, qval, Algebra.scale, Algebra.conj.
    cbn [Algebra.re Algebra.im_i Algebra.im_j Algebra.im_k val]. by vals. }
  split; [exact Hr|]. rewrite Hr. by apply hamilton_inverse.
Qed.

(** C5 at [Quaternion(2, 0, 0, 0)].  The squared sum of four ints is an
    int, 4 here, and [/] between ints is the floor division of Python 2:
    [reciprocal()] returns the zero quaternion instead of
    [0.5 + 0i + 0j + 0k], and the product of the quaternion with this
    "reciprocal" is the zero quaternion instead of 1. *)
Theorem reciprocal_of_int_quaternion_floors :
  let h : heap := {[ 1%positive := Qobj (PInt 2) (PInt 0) (PInt 0) (PInt 0) ]} in
  exists l h',
    h !! l = None /\
    Quaternion.reciprocal 1%positive h = (Ok l, h') /\
    h' = <[l := Qobj (PInt 0) (PInt 0) (PInt 0) (PInt 0)]> h /\
    exists l2,
      Quaternion.__mul__ 1%positive (VRef l) h'
      = (Ok l2, <[l2 := Qobj (PInt 0) (PInt 0) (PInt 0) (PInt 0)]> h').
Proof.
  intros h.
  assert (Hl : h !! 1%positive = Some (Qobj (PInt 2) (PInt 0) (PInt 0) (PInt 0)))
    by reflexivity.
  destruct (run_reciprocal h _ _ _ _ _ Hl) as (a' & b' & c' & d' & Ha & Hb & Hc & Hd & Hrun).
  { unfold Algebra.sqnorm, qval.
    cbn [Algebra.re Algebra.im_i Algebra.im_j Algebra.im_k val].
    rewrite val_eps. lra. }
  vm_compute in Ha, Hb, Hc, Hd.
  injection Ha as <-. injection Hb as <-. injection Hc as <-. injection Hd as <-.
  eexists _, _. split; [apply fresh_None|]. split; [exact Hrun|]. split; [reflexivity|].
  eexists. etransitivity; [eapply run_mul_quat|].
  - rewrite lookup_insert_ne by (by eapply fresh_ne). exact Hl.
  - apply lookup_insert_eq.
  - reflexivity.
Qed.

(** The reciprocal of [quaternion_test.py]: [p] is [-3 + 1.0i + 2j - 1k],
    with the float component of the copied [i = Quaternion(i=1.0)], and
    [p.reciprocal()] is [-0.2 - 0.0666...i - 0.1333...j + 0.0666...k], the
    value the script expects. *)
Example quaternion_test_reciprocal (h : heap) l :
  h !! l = Some (Qobj (PInt (-3)) (PFloat 1) (PInt 2) (PInt (-1))) ->
  exists l' a b c d,
    Quaternion.reciprocal l h = (Ok l', <[l' := Qobj a b c d]> h) /\
    val a = (-0.2)%R /\ val b = (- 1 / 15)%R /\ val c = (- 2 / 15)%R /\
    val d = (1 / 15)%R.
Proof.
  intros Hl.
  destruct (reciprocal_of_float_quaternion h l _ _ _ _ _ Hl eq_refl)
    as (l' & a & b & c & d & _ & Hrun & Hval & _).
  { rewrite val_eps. vals. cbn [val]. lra. }
  exists l', a, b, c, d. split; [exact Hrun|].
  unfold qval, Algebra.scale, Algebra.conj, Algebra.sqnorm in Hval.
  cbn [Algebra.re Algebra.im_i Algebra.im_j Algebra.im_k val] in Hval.
  injection Hval as -> -> -> ->. repeat split; lra.
Qed.

(** ** Point3D *)

(** Unfolding of the statements of a computation, down to the look-ups in
    the store. *)
Ltac mred :=
  cbv beta iota zeta
      delta [mbind M_bind mret M_ret raise lift load store alloc getattr setattr
             as_num try_except negb andb InstanceCheck.isFloat
             attr_o attr_i attr_j attr_k set_o set_i set_j set_k
             attr_x attr_y attr_z set_x set_y set_z
             attr__r attr__theta attr__q set__r set__theta set__q
             o i j k x y z __r __theta __q
             Quaternion.isQuaternion Point3D.isPoint3D
             Point3D.new Point3D.__init__ Point3D.setPoint].

Ltac mcompute :=
  repeat (mred;
          first [ rewrite lookup_insert_eq
                | rewrite lookup_insert_ne by first [ congruence | eapply fresh_ne; lookup | eapply ne_fresh; lookup ]
                | match goal with H : _ !! _ = _ |- _ => rewrite H end ]);
  mred.

Lemma run_new_Point3D h a b c :
  Point3D.new (VNum a) (VNum b) (VNum c) h
  = (Ok (fresh (dom h)), <[fresh (dom h) := Pobj a b c]> h).
Proof. mcompute. tidy. Qed.

Lemma run_new_Point3D_copy h lp a b c vy vz :
  h !! lp = Some (Pobj a b c) ->
  Point3D.new (VRef lp) vy vz h
  = (Ok (fresh (dom h)), <[fresh (dom h) := Pobj a b c]> h).
Proof. intros Hl. mcompute. tidy. Qed.

(** [Point3D(x, y, z)] returns in two cases only: three numbers, or a
    first argument that is a point whose components have been assigned. *)
Lemma new_Point3D_inv h vx vy vz l h' :
  Point3D.new vx vy vz h = (Ok l, h') ->
  exists a b c,
    l = fresh (dom h) /\ h' = <[l := Pobj a b c]> h /\
    ((vx = VNum a /\ vy = VNum b /\ vz = VNum c) \/
     (exists lp, vx = VRef lp /\ h !! lp = Some (Pobj a b c))).
Proof.
  destruct vx as [a| | |lp].
  - destruct vy as [b| | |], vz as [c| | |];
      try (mcompute; discriminate).
    rewrite run_new_Point3D. intros [= <- <-]. exists a, b, c. eauto 10.
  - mcompute. discriminate.
  - mcompute. discriminate.
  - destruct (decide (lp = fresh (dom h))) as [->|Hne].
    { mcompute. discriminate. }
    destruct (h !! lp) as [[q|[[a|] [b|] [c|]]|r]|] eqn:Hlp;
      try (mcompute; discriminate).
    rewrite (run_new_Point3D_copy h lp a b c) by exact Hlp.
    intros [= <- <-]. exists a, b, c. eauto 10.
Qed.

(** ** Rotation: the re-derivation *)

Lemma try_except_ok {A} (body : M A) handler h a h' :
  body h = (Ok a, h') -> try_except body handler h = (Ok a, h').
Proof. intros Hb. unfold try_except. by rewrite Hb. Qed.

Lemma try_except_raise {A} (body : M A) handler h e h' r :
  body h = (Raise e, h') ->
  match handler e with Some k => k h' | None => (Raise e, h') end = r ->
  try_except body handler h = r.
Proof. intros Hb Hr. unfold try_except. by rewrite Hb. Qed.

Ltac rcall :=
  first
    [ qcall
    | eapply run_unit; [lookup | eassumption]
    | eapply run_imul_scalar; lookup
    | eapply run_iadd_scalar; lookup
    | eapply run_mul_quat; [lookup | lookup]
    | eapply run_conj; lookup
    | eapply run_new_Point3D ].

Section update.

Variables (h : heap) (self lr : loc) (theta : num) (oq : option loc) (a b c : num).

Hypothesis Hself :
  h !! self = Some (ORotation {| __r := Some lr; __theta := Some theta; __q := oq |}).
Hypothesis Hr : h !! lr = Some (Pobj a b c).

(** The norm of the pure quaternion built from the stored axis. *)
Let n : R := Algebra.norm (qval (PFloat 0) a b c).

Lemma update_raise :
  (n < val Quaternion.eps)%R ->
  Rotation.__update self h
  = (Raise (RotationException
              "Could not generate a rotation quaternion: 'Cannot normalize a zero-quaternion'"),
     <[fresh (dom h) := Qobj (PFloat 0) a b c]> h).
Proof.
  intros Hn. unfold Rotation.__update.
  eapply try_except_raise.
  - do 6 (eapply bind_ok; [prim|]; cbv beta).
    eapply bind_ok; [apply run_new_Quaternion|]. cbv beta.
    eapply bind_raise.
    eapply run_unit_raise; [apply lookup_insert_eq | exact Hn].
  - reflexivity.
Qed.

Lemma update_ok :
  (val Quaternion.eps <= n)%R ->
  exists h', Rotation.__update self h = (Ok tt, h') /\ rederived h h' self lr a b c theta.
Proof.
  intros Hn. subst n.
  assert (Hne : self ≠ lr) by congruence.
  eexists. split.
  { unfold Rotation.__update. eapply try_except_ok.
    unfold Quaternion.getI, Quaternion.getJ, Quaternion.getK.
    run_with rcall. }
  exists (fresh (dom (<[fresh (dom h) := Qobj (PFloat 0) a b c]> h))).
  split.
  { pose proof (fresh_None (<[fresh (dom h) := Qobj (PFloat 0) a b c]> h)) as Hf.
    apply lookup_insert_None in Hf. apply Hf. }
  split; [lookup|]. split; [lookup|]. split; [lookup|].
  intros l ob Hl Hls Hlr. lookup.
Qed.

(** The re-derivation returns exactly when the norm of the axis is at
    least [eps]. *)
Lemma update_returns h' :
  Rotation.__update self h = (Ok tt, h') ->
  (val Quaternion.eps <= n)%R /\ rederived h h' self lr a b c theta.
Proof.
  intros Hrun. destruct (Rlt_dec n (val Quaternion.eps)) as [Hlt|Hge].
  - rewrite (update_raise Hlt) in Hrun. discriminate.
  - apply Rnot_lt_le in Hge. split; [exact Hge|].
    destruct (update_ok Hge) as (h2 & Hrun2 & Hre).
    rewrite Hrun2 in Hrun. by injection Hrun as <-.
Qed.

End update.

(** ** Rotation: the invariant *)

Lemma sqnorm_axis_angle ux uy uz t :
  (ux * ux + uy * uy + uz * uz = 1)%R ->
  Algebra.sqnorm (Algebra.axis_angle ux uy uz t) = 1%R.
Proof.
  intros Hu. unfold Algebra.sqnorm, Algebra.axis_angle.
  cbn [Algebra.re Algebra.im_i Algebra.im_j Algebra.im_k].
  pose proof (sin2_cos2 (t / 2)) as Hsc. unfold Rsqr in Hsc.
  transitivity (cos (t / 2) * cos (t / 2)
                + sin (t / 2) * sin (t / 2) * (ux * ux + uy * uy + uz * uz))%R;
    [ring|]. rewrite Hu. lra.
Qed.

Lemma norm_axis_angle ux uy uz t :
  (ux * ux + uy * uy + uz * uz = 1)%R ->
  Algebra.norm (Algebra.axis_angle ux uy uz t) = 1%R.
Proof.
  intros Hu. unfold Algebra.norm. rewrite (sqnorm_axis_angle _ _ _ _ Hu). apply sqrt_1.
Qed.

(** A vector divided by its norm is a unit vector. *)
Lemma unit_axis a b c :
  let n := Algebra.norm (Algebra.pure a b c) in
  (0 < n)%R ->
  (a / n * (a / n) + b / n * (b / n) + c / n * (c / n) = 1)%R.
Proof.
  intros n Hn.
  assert (Hs : (n * n = 0 * 0 + a * a + b * b + c * c)%R)
    by (apply sqrt_sqrt, (sqnorm_nonneg (Algebra.pure a b c))).
  transitivity ((0 * 0 + a * a + b * b + c * c) / (n * n))%R; [field; lra|].
  rewrite <- Hs. field. lra.
Qed.

Lemma half_angle t : (0.5 * t = t / 2)%R.
Proof. lra. Qed.

(** The state left by the re-derivation satisfies the invariant. *)
Lemma rederived_inv h h' self lr a b c theta :
  (val Quaternion.eps <= Algebra.norm (qval (PFloat 0) a b c))%R ->
  rederived h h' self lr a b c theta ->
  rotation_inv h' self.
Proof.
  intros Hn (lq & Hfresh & Hself & Hr & Hq & Hframe).
  pose proof eps_pos as Hpos.
  set (n := Algebra.norm (qval (PFloat 0) a b c)) in *.
  assert (Hu : (val a / n * (val a / n) + val b / n * (val b / n)
                + val c / n * (val c / n) = 1)%R)
    by (apply unit_axis; change (0 < n)%R; lra).
  assert (Hq' : qval (PFloat (0 / n) * math.sin (PFloat 0.5 * theta)
                      + math.cos (PFloat 0.5 * theta))
                     (PFloat (val a / n) * math.sin (PFloat 0.5 * theta))
                     (PFloat (val b / n) * math.sin (PFloat 0.5 * theta))
                     (PFloat (val c / n) * math.sin (PFloat 0.5 * theta))
                = Algebra.axis_angle (val a / n) (val b / n) (val c / n) (val theta)).
  { unfold qval, Algebra.axis_angle, math.sin, math.cos. vals.
    cbn [val]. rewrite half_angle. f_equal; field; lra. }
  do 10 eexists. split; [exact Hself|]. split; [exact Hr|]. split; [exact Hq|].
  cbn [val]. split; [exact Hu|]. split; [exact Hq'|].
  rewrite Hq'. by apply norm_axis_angle.
Qed.

(** The invariant is what the caller's checks observe. *)
Lemma inv_consistent h self : rotation_inv h self -> consistent h self.
Proof.
  intros Hinv. split; [exact Hinv|].
  destruct Hinv as (lr & lq & ux & uy & uz & theta & qo & qi & qj & qk &
                    Hself & Hr & Hq & Hu & Hqv & Hnorm).
  split.
  - unfold check_norm, Rotation.getRotationQuaternion.
    eapply bind_ok; [prim|]. rewrite (run_norm _ _ _ _ _ _ Hq). by rewrite Hnorm.
  - eexists _, _. split.
    + unfold check_axis, Rotation.getAxis, Point3D.sqSum. run_with rcall.
    + vals. cbn [val]. nra.
Qed.

(** ** Rotation: [setAxis], [setAngle] and the constructor *)

(** Assigning an attribute of the rotation before the re-derivation does
    not change what the re-derivation leaves of the store. *)
Lemma rederived_frame h h' self ob lr a b c theta :
  is_Some (h !! self) ->
  rederived (<[self := ob]> h) h' self lr a b c theta ->
  rederived h h' self lr a b c theta.
Proof.
  intros Hs (lq & Hfresh & Hself & Hr & Hq & Hframe).
  apply lookup_insert_None in Hfresh as [Hfresh Hne].
  exists lq. repeat split; try done.
  intros l ob' Hl Hls Hlr. apply Hframe; try done.
  by rewrite lookup_insert_ne.
Qed.

Section setAngle.

Variables (h : heap) (self lr : loc) (r : RotationObj) (a b c : num).

Hypothesis Hself : h !! self = Some (ORotation r).
Hypothesis Hlr : __r r = Some lr.
Hypothesis Hr : h !! lr = Some (Pobj a b c).

Let n : R := Algebra.norm (qval (PFloat 0) a b c).

Lemma setAngle_step theta :
  Rotation.setAngle self (VNum theta) h
  = Rotation.__update self
      (<[self := ORotation {| __r := Some lr; __theta := Some theta; __q := __q r |}]> h).
Proof.
  unfold Rotation.setAngle. cbn [negb InstanceCheck.isFloat].
  eapply bind_ok; [reflexivity|]. cbv beta.
  eapply bind_ok; [|reflexivity].
  eapply run_setattr; [exact Hself|]. cbn [set__theta]. by rewrite Hlr.
Qed.

Lemma setAngle_ok theta :
  (val Quaternion.eps <= n)%R ->
  exists h', Rotation.setAngle self (VNum theta) h = (Ok tt, h') /\
             rederived h h' self lr a b c theta.
Proof.
  intros Hn. rewrite setAngle_step.
  assert (Hne : self ≠ lr) by congruence.
  edestruct update_ok as (h' & Hrun & Hre);
    [apply lookup_insert_eq | by rewrite lookup_insert_ne | exact Hn |].
  exists h'. split; [exact Hrun|]. eapply rederived_frame; [|exact Hre]. by eexists.
Qed.

Lemma setAngle_returns angle h' :
  Rotation.setAngle self angle h = (Ok tt, h') ->
  exists theta,
    angle = VNum theta /\ (val Quaternion.eps <= n)%R /\
    rederived h h' self lr a b c theta.
Proof.
  destruct angle as [theta| | |]; try discriminate.
  rewrite setAngle_step. intros Hrun.
  assert (Hne : self ≠ lr) by congruence.
  eapply update_returns in Hrun as [Hn Hre];
    [|apply lookup_insert_eq | by rewrite lookup_insert_ne].
  exists theta. split; [done|]. split; [exact Hn|].
  eapply rederived_frame; [|exact Hre]. by eexists.
Qed.

End setAngle.

Section setAxis.

Variables (h : heap) (self : loc) (r : RotationObj) (theta : num).

Hypothesis Hself : h !! self = Some (ORotation r).
Hypothesis Htheta : __theta r = Some theta.

Lemma setAxis_step rx ry rz a b c :
  Point3D.new rx ry rz h = (Ok (fresh (dom h)), <[fresh (dom h) := Pobj a b c]> h) ->
  Rotation.setAxis self rx ry rz h
  = Rotation.__update self
      (<[self := ORotation {| __r := Some (fresh (dom h)); __theta := Some theta;
                              __q := __q r |}]>
         (<[fresh (dom h) := Pobj a b c]> h)).
Proof.
  intros Hnew. unfold Rotation.setAxis.
  eapply bind_ok; [|reflexivity].
  eapply try_except_ok. eapply bind_ok; [exact Hnew|]. cbv beta.
  eapply run_setattr; [lookup|]. cbn [set__r]. by rewrite Htheta.
Qed.

Lemma setAxis_new_raises rx ry rz e h1 :
  Point3D.new rx ry rz h = (Raise e, h1) ->
  exists e', Rotation.setAxis self rx ry rz h = (Raise e', h1).
Proof.
  intros Hnew. unfold Rotation.setAxis.
  assert (Hbody : (Point3D.new rx ry rz ≫= λ l, setattr (set__r l) self) h = (Raise e, h1))
    by (by eapply bind_raise).
  destruct e; eexists; eapply bind_raise;
    (eapply try_except_raise; [exact Hbody | reflexivity]).
Qed.

Lemma setAxis_ok a b c :
  (val Quaternion.eps <= Algebra.norm (qval (PFloat 0) a b c))%R ->
  exists h',
    Rotation.setAxis self (VNum a) (VNum b) (VNum c) h = (Ok tt, h') /\
    rederived (<[fresh (dom h) := Pobj a b c]> h) h' self (fresh (dom h)) a b c theta.
Proof.
  intros Hn. rewrite (setAxis_step _ _ _ a b c) by apply run_new_Point3D.
  edestruct update_ok as (h' & Hrun & Hre);
    [apply lookup_insert_eq | | exact Hn |].
  { rewrite lookup_insert_ne by (by eapply ne_fresh). apply lookup_insert_eq. }
  exists h'. split; [exact Hrun|]. eapply rederived_frame; [|exact Hre].
  eexists. lookup.
Qed.

(** When the re-derivation fails, the new axis has been stored and the
    rotation quaternion is the one of the previous axis. *)
Lemma setAxis_raise a b c :
  (Algebra.norm (qval (PFloat 0) a b c) < val Quaternion.eps)%R ->
  let h1 : heap :=
    <[self := ORotation {| __r := Some (fresh (dom h)); __theta := Some theta;
                           __q := __q r |}]>
      (<[fresh (dom h) := Pobj a b c]> h) in
  Rotation.setAxis self (VNum a) (VNum b) (VNum c) h
  = (Raise (RotationException
              "Could not generate a rotation quaternion: 'Cannot normalize a zero-quaternion'"),
     <[fresh (dom h1) := Qobj (PFloat 0) a b c]> h1).
Proof.
  intros Hn h1. subst h1. rewrite (setAxis_step _ _ _ a b c) by apply run_new_Point3D.
  eapply update_raise; [apply lookup_insert_eq | | exact Hn].
  rewrite lookup_insert_ne by (by eapply ne_fresh). apply lookup_insert_eq.
Qed.

Lemma setAxis_returns rx ry rz h' :
  Rotation.setAxis self rx ry rz h = (Ok tt, h') ->
  exists lr a b c,
    h !! lr = None /\
    ((rx = VNum a /\ ry = VNum b /\ rz = VNum c) \/
     (exists lp, rx = VRef lp /\ h !! lp = Some (Pobj a b c))) /\
    (val Quaternion.eps <= Algebra.norm (qval (PFloat 0) a b c))%R /\
    rederived (<[lr := Pobj a b c]> h) h' self lr a b c theta.
Proof.
  intros Hrun.
  destruct (Point3D.new rx ry rz h) as [[l|e] h1] eqn:Hnew.
  - destruct (new_Point3D_inv _ _ _ _ _ _ Hnew) as (a & b & c & -> & -> & Hargs).
    rewrite (setAxis_step _ _ _ a b c Hnew) in Hrun.
    eapply update_returns in Hrun as [Hn Hre];
      [|apply lookup_insert_eq
       |rewrite lookup_insert_ne by (by eapply ne_fresh); apply lookup_insert_eq].
    exists (fresh (dom h)), a, b, c. split; [apply fresh_None|].
    split; [exact Hargs|]. split; [exact Hn|].
    eapply rederived_frame; [|exact Hre]. eexists. lookup.
  - destruct (setAxis_new_raises _ _ _ _ _ Hnew) as [e' He'].
    rewrite He' in Hrun. discriminate.
Qed.

End setAxis.

Section constructor.

Variable h : heap.

(** The instance the call [Rotation(...)] creates, and its state when
    [__init__] calls [setAxis]. *)
Let self : loc := fresh (dom h).
Let h0 (theta : num) : heap :=
  <[self := ORotation {| __r := None; __theta := Some theta; __q := None |}]> h.

Lemma new_Rotation_step rx ry rz theta :
  Rotation.new rx ry rz (VNum theta) h
  = (Rotation.setAxis self rx ry rz ≫= λ _, mret self) (h0 theta).
Proof.
  unfold Rotation.new, Rotation.__init__. cbn [negb InstanceCheck.isFloat].
  eapply bind_ok; [reflexivity|]. cbv beta. fold self.
  cbn [as_num]. unfold mbind, M_bind, mret, M_ret. cbv beta iota.
  erewrite run_setattr; [|apply lookup_insert_eq|reflexivity].
  cbn [__r __theta __q]. rewrite insert_insert_eq. fold (h0 theta).
  by destruct (Rotation.setAxis self rx ry rz (h0 theta)) as [[[]|e] h2].
Qed.

Lemma new_Rotation_ok a b c theta :
  (val Quaternion.eps <= Algebra.norm (qval (PFloat 0) a b c))%R ->
  exists h' lr,
    Rotation.new (VNum a) (VNum b) (VNum c) (VNum theta) h = (Ok self, h') /\
    h !! self = None /\ h !! lr = None /\
    rederived (<[lr := Pobj a b c]> (h0 theta)) h' self lr a b c theta.
Proof.
  intros Hn. rewrite new_Rotation_step.
  edestruct (setAxis_ok (h0 theta) self) as (h' & Hrun & Hre);
    [apply lookup_insert_eq | reflexivity | exact Hn |].
  exists h', (fresh (dom (h0 theta))). split; [by eapply bind_ok|].
  split; [apply fresh_None|]. split; [|exact Hre].
  pose proof (fresh_None (h0 theta)) as Hf. by apply lookup_insert_None in Hf as [Hf _].
Qed.

Lemma new_Rotation_raise a b c theta :
  (Algebra.norm (qval (PFloat 0) a b c) < val Quaternion.eps)%R ->
  exists h',
    Rotation.new (VNum a) (VNum b) (VNum c) (VNum theta) h
    = (Raise (RotationException
                "Could not generate a rotation quaternion: 'Cannot normalize a zero-quaternion'"),
       h').
Proof.
  intros Hn. rewrite new_Rotation_step.
  eexists. eapply bind_raise.
  eapply (setAxis_raise (h0 theta) self); [apply lookup_insert_eq | reflexivity | exact Hn].
Qed.

Lemma new_Rotation_returns rx ry rz angle l h' :
  Rotation.new rx ry rz angle h = (Ok l, h') ->
  exists theta lr a b c,
    angle = VNum theta /\ l = self /\ h !! self = None /\ h !! lr = None /\
    ((rx = VNum a /\ ry = VNum b /\ rz = VNum c) \/
     (exists lp, rx = VRef lp /\ h !! lp = Some (Pobj a b c))) /\
    (val Quaternion.eps <= Algebra.norm (qval (PFloat 0) a b c))%R /\
    rederived (<[lr := Pobj a b c]> (h0 theta)) h' self lr a b c theta.
Proof.
  destruct angle as [theta| | |]; try discriminate.
  rewrite new_Rotation_step. intros Hrun.
  destruct (Rotation.setAxis self rx ry rz (h0 theta)) as [[[]|e] h2] eqn:Haxis;
    [|unfold mbind, M_bind in Hrun; rewrite Haxis in Hrun; discriminate].
  rewrite (bind_ok _ _ _ _ _ _ Haxis eq_refl) in Hrun. injection Hrun as <- <-.
  eapply setAxis_returns in Haxis as (lr & a & b & c & Hfresh & Hargs & Hn & Hre);
    [|apply lookup_insert_eq | reflexivity].
  apply lookup_insert_None in Hfresh as [Hfresh Hne].
  exists theta, lr, a, b, c. split; [done|]. split; [done|].
  split; [apply fresh_None|]. split; [done|]. split; [|done].
  destruct Hargs as [Hnum|(lp & -> & Hlp)]; [by left|right].
  exists lp. split; [done|].
  apply lookup_insert_Some in Hlp as [[_ [=]]|[_ Hlp]]. exact Hlp.
Qed.

End constructor.

(** ** Rotation: [rotate] *)

(** The sandwich product [q·p·conj(q)] of section 4.3. *)
Lemma run_rotate h self r lq qo qi qj qk lp px py pz :
  h !! self = Some (ORotation r) ->
  __q r = Some lq ->
  h !! lq = Some (Qobj qo qi qj qk) ->
  h !! lp = Some (Pobj px py pz) ->
  let s := Algebra.hamilton
             (Algebra.hamilton (qval qo qi qj qk) (Algebra.pure (val px) (val py) (val pz)))
             (Algebra.conj (qval qo qi qj qk)) in
  exists l' h' vx vy vz,
    Rotation.rotate self (VRef lp) h = (Ok l', h') /\
    h !! l' = None /\
    h' !! l' = Some (Pobj vx vy vz) /\
    (forall l ob, h !! l = Some ob -> h' !! l = Some ob) /\
    val vx = Algebra.im_i s /\ val vy = Algebra.im_j s /\ val vz = Algebra.im_k s.
Proof.
  intros Hself Hlq Hq Hp s.
  eexists _, _, _, _, _. split.
  { unfold Rotation.rotate, Quaternion.getI, Quaternion.getJ, Quaternion.getK.
    run_with rcall. }
  split.
  { match goal with |- _ !! fresh (dom ?m) = None => pose proof (fresh_None m) as Hf end.
    repeat (apply lookup_insert_None in Hf as [Hf _]). exact Hf. }
  split; [apply lookup_insert_eq|].
  split; [intros l ob Hl; lookup|].
  subst s. rewrite <- qval_conj.
  change (Algebra.pure (val px) (val py) (val pz)) with (qval (PInt 0) px py pz).
  rewrite <- !qval_hamilton. by cbn [Algebra.im_i Algebra.im_j Algebra.im_k qval].
Qed.

Lemma rotate_not_a_point h self p :
  Point3D.isPoint3D p h = (Ok false, h) ->
  Rotation.rotate self p h
  = (Raise (RotationException "Input must be an instance of Point3D"), h).
Proof. intros Hp. unfold Rotation.rotate. eapply bind_ok; [exact Hp|]. reflexivity. Qed.



(** The norms of the axes used below. *)
Lemma norm_z_axis : Algebra.norm (qval (PFloat 0) (PFloat 0) (PFloat 0) (PFloat 1)) = 1%R.
Proof.
  unfold Algebra.norm, Algebra.sqnorm, qval.
  cbn [Algebra.re Algebra.im_i Algebra.im_j Algebra.im_k val].
  replace (0 * 0 + 0 * 0 + 0 * 0 + 1 * 1)%R with 1%R by ring. apply sqrt_1.
Qed.

Lemma norm_zero_axis : Algebra.norm (qval (PFloat 0) (PFloat 0) (PFloat 0) (PFloat 0)) = 0%R.
Proof.
  unfold Algebra.norm, Algebra.sqnorm, qval.
  cbn [Algebra.re Algebra.im_i Algebra.im_j Algebra.im_k val].
  replace (0 * 0 + 0 * 0 + 0 * 0 + 0 * 0)%R with 0%R by ring. apply sqrt_0.
Qed.

Lemma norm_tiny_axis :
  (Algebra.norm (qval (PFloat 0) (PFloat 1e-13) (PFloat 0) (PFloat 0))
   < val Quaternion.eps)%R.
Proof.
  unfold Algebra.norm, Algebra.sqnorm, qval.
  cbn [Algebra.re Algebra.im_i Algebra.im_j Algebra.im_k val].
  rewrite val_eps. rewrite <- (sqrt_square 1e-12) by lra.
  apply sqrt_lt_1; lra.
Qed.




(** C10. [Rotation()] with the default arguments, the axis [(0.0, 0.0, 0.0)]
    and the angle [0.0], raises [RotationException] in every store: the
    zero axis cannot be normalized. *)
Theorem default_rotation_raises (h : heap) :
  exists h',
    Rotation.new (VNum (PFloat 0)) (VNum (PFloat 0)) (VNum (PFloat 0)) (VNum (PFloat 0)) h
    = (Raise (RotationException
                "Could not generate a rotation quaternion: 'Cannot normalize a zero-quaternion'"),
       h').
Proof.
  apply new_Rotation_raise. rewrite norm_zero_axis, val_eps. lra.
Qed.




(** ** Rotation: there and back *)

(** Conjugating by a unit quaternion and then by its conjugate gives the
    vector back. *)
Lemma sandwich_back q px py pz :
  Algebra.sqnorm q = 1%R ->
  let s := Algebra.hamilton (Algebra.hamilton q (Algebra.pure px py pz)) (Algebra.conj q) in
  let t := Algebra.hamilton
             (Algebra.hamilton (Algebra.conj q)
                (Algebra.pure (Algebra.im_i s) (Algebra.im_j s) (Algebra.im_k s)))
             (Algebra.conj (Algebra.conj q)) in
  Algebra.im_i t = px /\ Algebra.im_j t = py /\ Algebra.im_k t = pz.
Proof.
  destruct q as [a b c d]. unfold Algebra.sqnorm, Algebra.hamilton, Algebra.conj, Algebra.pure.
  cbn [Algebra.re Algebra.im_i Algebra.im_j Algebra.im_k]. intros Hn.
  repeat split.
  - transitivity ((a * a + b * b + c * c + d * d) * (a * a + b * b + c * c + d * d) * px)%R;
      [ring | rewrite Hn; ring].
  - transitivity ((a * a + b * b + c * c + d * d) * (a * a + b * b + c * c + d * d) * py)%R;
      [ring | rewrite Hn; ring].
  - transitivity ((a * a + b * b + c * c + d * d) * (a * a + b * b + c * c + d * d) * pz)%R;
      [ring | rewrite Hn; ring].
Qed.

(** The rotation quaternion of the opposite angle is the conjugate. *)
Lemma axis_angle_opp ux uy uz t :
  Algebra.axis_angle ux uy uz (- t) = Algebra.conj (Algebra.axis_angle ux uy uz t).
Proof.
  unfold Algebra.axis_angle, Algebra.conj.
  cbn [Algebra.re Algebra.im_i Algebra.im_j Algebra.im_k].
  replace (- t / 2)%R with (- (t / 2))%R by lra.
  rewrite cos_neg, sin_neg. f_equal; ring.
Qed.

(** Rotating by [theta] and then by [- theta] about a unit axis. *)
Lemma round_trip h self lr lq ux uy uz theta qo qi qj qk lp px py pz :
  h !! self = Some (Robj lr theta lq) ->
  h !! lr = Some (Pobj ux uy uz) ->
  h !! lq = Some (Qobj qo qi qj qk) ->
  (val ux * val ux + val uy * val uy + val uz * val uz = 1)%R ->
  qval qo qi qj qk = Algebra.axis_angle (val ux) (val uy) (val uz) (val theta) ->
  h !! lp = Some (Pobj px py pz) ->
  exists l1 h1 h2 l2 h3 vx vy vz,
    Rotation.rotate self (VRef lp) h = (Ok l1, h1) /\
    Rotation.setAngle self (VNum (- theta)) h1 = (Ok tt, h2) /\
    Rotation.rotate self (VRef l1) h2 = (Ok l2, h3) /\
    h3 !! l2 = Some (Pobj vx vy vz) /\
    val vx = val px /\ val vy = val py /\ val vz = val pz.
Proof.
  intros Hself Hr Hq Hu Hqv Hp.
  (* there *)
  destruct (run_rotate h self _ lq qo qi qj qk lp px py pz Hself eq_refl Hq Hp)
    as (l1 & h1 & wx & wy & wz & Hrun1 & Hfresh1 & Hl1 & Hframe1 & Hwx & Hwy & Hwz).
  (* the opposite angle *)
  assert (Hn : Algebra.norm (qval (PFloat 0) ux uy uz) = 1%R).
  { unfold Algebra.norm, Algebra.sqnorm, qval.
    cbn [Algebra.re Algebra.im_i Algebra.im_j Algebra.im_k val].
    replace (0 * 0 + val ux * val ux + val uy * val uy + val uz * val uz)%R with 1%R by lra.
    apply sqrt_1. }
  destruct (setAngle_ok h1 self lr _ ux uy uz (Hframe1 _ _ Hself) eq_refl
              (Hframe1 _ _ Hr) (- theta)%num)
    as (h2 & Hrun2 & lq2 & Hfresh2 & Hself2 & Hr2 & Hq2 & Hframe2).
  { rewrite Hn, val_eps. lra. }
  rewrite Hn in Hr2, Hq2.
  assert (Hl1' : h2 !! l1 = Some (Pobj wx wy wz)).
  { apply Hframe2; [exact Hl1 | congruence | congruence]. }
  (* and back *)
  destruct (run_rotate h2 self _ lq2 _ _ _ _ l1 wx wy wz Hself2 eq_refl Hq2 Hl1')
    as (l2 & h3 & vx & vy & vz & Hrun3 & _ & Hl2 & _ & Hvx & Hvy & Hvz).
  exists l1, h1, h2, l2, h3, vx, vy, vz.
  split; [exact Hrun1|]. split; [exact Hrun2|]. split; [exact Hrun3|].
  split; [exact Hl2|].
  (* the quaternion of the second rotation is the conjugate of the first *)
  assert (Hconj : qval (PFloat (0 / 1) * math.sin (PFloat 0.5 * - theta)
                        + math.cos (PFloat 0.5 * - theta))
                       (PFloat (val ux / 1) * math.sin (PFloat 0.5 * - theta))
                       (PFloat (val uy / 1) * math.sin (PFloat 0.5 * - theta))
                       (PFloat (val uz / 1) * math.sin (PFloat 0.5 * - theta))
                  = Algebra.conj (qval qo qi qj qk)).
  { rewrite Hqv, <- axis_angle_opp.
    unfold qval, Algebra.axis_angle, math.sin, math.cos. vals.
    cbn [val]. rewrite half_angle. f_equal; field. }
  rewrite Hconj, Hwx, Hwy, Hwz in Hvx, Hvy, Hvz.
  assert (Hunit : Algebra.sqnorm (qval qo qi qj qk) = 1%R)
    by (rewrite Hqv; by apply sqnorm_axis_angle).
  destruct (sandwich_back (qval qo qi qj qk) (val px) (val py) (val pz) Hunit)
    as (Hx & Hy & Hz).
  rewrite Hvx, Hvy, Hvz. auto.
Qed.



(** ** The scenarios of the test script *)

Lemma norm_z_axis_int : Algebra.norm (qval (PFloat 0) (PFloat 0) (PFloat 0) (PInt 1)) = 1%R.
Proof.
  unfold Algebra.norm, Algebra.sqnorm, qval.
  cbn [Algebra.re Algebra.im_i Algebra.im_j Algebra.im_k val].
  replace (0 * 0 + 0 * 0 + 0 * 0 + 1 * 1)%R with 1%R by ring. apply sqrt_1.
Qed.

(** Rotation of [(1, 1, 1)] by [pi/2] about the z axis: [(-1, 1, 1)]. *)
Example rotation_test_z_returns :
  exists vx vy vz h',
    rotation_test_z ∅ = (Ok (vx, vy, vz), h') /\
    val vx = (-1)%R /\ val vy = 1%R /\ val vz = 1%R.
Proof.
  unfold rotation_test_z.
  set (lp := fresh (dom (∅ : heap))).
  set (h0 := <[lp := Pobj (PInt 1) (PInt 1) (PInt 1)]> (∅ : heap)).
  assert (Hp : h0 !! lp = Some (Pobj (PInt 1) (PInt 1) (PInt 1)))
    by apply lookup_insert_eq.
  destruct (new_Rotation_ok h0 (PFloat 0) (PFloat 0) (PInt 1) (PFloat (PI / 2)))
    as (h1 & lr & Hnew & Hfresh & Hlr & lq & _ & Hself & Hr & Hq & Hframe).
  { rewrite norm_z_axis_int, val_eps. lra. }
  rewrite norm_z_axis_int in Hr, Hq.
  assert (Hp1 : h1 !! lp = Some (Pobj (PInt 1) (PInt 1) (PInt 1))).
  { apply Hframe; [|congruence..].
    rewrite !lookup_insert_ne; [exact Hp | congruence | congruence]. }
  destruct (run_rotate h1 _ _ lq _ _ _ _ _ _ _ _ Hself eq_refl Hq Hp1)
    as (l' & h2 & vx & vy & vz & Hrot & _ & Hl' & _ & Hvx & Hvy & Hvz).
  exists vx, vy, vz, h2. split.
  - eapply bind_ok; [apply run_new_Point3D|]. cbv beta.
    eapply bind_ok; [exact Hnew|]. cbv beta.
    eapply bind_ok; [exact Hrot|]. cbv beta.
    unfold Point3D.getX, Point3D.getY, Point3D.getZ. run.
  - assert (Hs : (sqrt 2 * sqrt 2 = 2)%R) by (apply sqrt_sqrt; lra).
    assert (Hs0 : (0 < sqrt 2)%R) by (apply sqrt_lt_R0; lra).
    rewrite Hvx, Hvy, Hvz. unfold qval, Algebra.hamilton, Algebra.conj, Algebra.pure,
      math.sin, math.cos.
    cbn [Algebra.re Algebra.im_i Algebra.im_j Algebra.im_k]. vals. cbn [val].
    replace (0.5 * (PI / 2))%R with (PI / 4)%R by lra.
    rewrite cos_PI4, sin_PI4.
    set (c := (1 / sqrt 2)%R).
    assert (Hc : (c * c = 1 / 2)%R).
    { unfold c. transitivity (1 / (sqrt 2 * sqrt 2))%R; [field; lra | rewrite Hs; lra]. }
    clearbody c.
    repeat split; nra.
Qed.

Lemma norm_y_axis_int : Algebra.norm (qval (PFloat 0) (PInt 0) (PInt 2) (PInt 0)) = 2%R.
Proof.
  unfold Algebra.norm, Algebra.sqnorm, qval.
  cbn [Algebra.re Algebra.im_i Algebra.im_j Algebra.im_k val].
  replace (0 * 0 + 0 * 0 + 2 * 2 + 0 * 0)%R with (2 * 2)%R by ring.
  apply sqrt_square. lra.
Qed.

(** Then about the axis [(0, 2, 0)], normalized to the y axis:
    [(1, 1, -1)]. *)
Example rotation_test_y_returns :
  exists vx vy vz h',
    rotation_test_y ∅ = (Ok (vx, vy, vz), h') /\
    val vx = 1%R /\ val vy = 1%R /\ val vz = (-1)%R.
Proof.
  unfold rotation_test_y.
  set (lp := fresh (dom (∅ : heap))).
  set (h0 := <[lp := Pobj (PInt 1) (PInt 1) (PInt 1)]> (∅ : heap)).
  assert (Hp : h0 !! lp = Some (Pobj (PInt 1) (PInt 1) (PInt 1)))
    by apply lookup_insert_eq.
  destruct (new_Rotation_ok h0 (PFloat 0) (PFloat 0) (PInt 1) (PFloat (PI / 2)))
    as (h1 & lr & Hnew & Hfresh & Hlr & lq & _ & Hself & Hr & Hq & Hframe).
  { rewrite norm_z_axis_int, val_eps. lra. }
  assert (Hp1 : h1 !! lp = Some (Pobj (PInt 1) (PInt 1) (PInt 1))).
  { apply Hframe; [|congruence..].
    rewrite !lookup_insert_ne; [exact Hp | congruence | congruence]. }
  destruct (setAxis_ok h1 _ _ (PFloat (PI / 2)) Hself eq_refl (PInt 0) (PInt 2) (PInt 0))
    as (h2 & Haxis & lq2 & _ & Hself2 & Hr2 & Hq2 & Hframe2).
  { rewrite norm_y_axis_int, val_eps. lra. }
  rewrite norm_y_axis_int in Hr2, Hq2.
  assert (Hp2 : h2 !! lp = Some (Pobj (PInt 1) (PInt 1) (PInt 1))).
  { assert (Hne : lp ≠ fresh (dom h1)) by (by eapply ne_fresh).
    apply Hframe2; [by rewrite lookup_insert_ne | congruence | exact Hne]. }
  destruct (run_rotate h2 _ _ lq2 _ _ _ _ _ _ _ _ Hself2 eq_refl Hq2 Hp2)
    as (l' & h3 & vx & vy & vz & Hrot & _ & Hl' & _ & Hvx & Hvy & Hvz).
  exists vx, vy, vz, h3. split.
  - eapply bind_ok; [apply run_new_Point3D|]. cbv beta.
    eapply bind_ok; [exact Hnew|]. cbv beta.
    eapply bind_ok; [exact Haxis|]. cbv beta.
    eapply bind_ok; [exact Hrot|]. cbv beta.
    unfold Point3D.getX, Point3D.getY, Point3D.getZ. run.
  - assert (Hs : (sqrt 2 * sqrt 2 = 2)%R) by (apply sqrt_sqrt; lra).
    assert (Hs0 : (0 < sqrt 2)%R) by (apply sqrt_lt_R0; lra).
    rewrite Hvx, Hvy, Hvz. unfold qval, Algebra.hamilton, Algebra.conj, Algebra.pure,
      math.sin, math.cos.
    cbn [Algebra.re Algebra.im_i Algebra.im_j Algebra.im_k]. vals. cbn [val].
    replace (0.5 * (PI / 2))%R with (PI / 4)%R by lra.
    rewrite cos_PI4, sin_PI4.
    set (c := (1 / sqrt 2)%R).
    assert (Hc : (c * c = 1 / 2)%R).
    { unfold c. transitivity (1 / (sqrt 2 * sqrt 2))%R; [field; lra | rewrite Hs; lra]. }
    clearbody c.
    repeat split; nra.
Qed.


(** * Further properties *)

(** ** Quaternion: construction and assignment of all components *)

Lemma run_isQuaternion_num h n : Quaternion.isQuaternion (VNum n) h = (Ok false, h).
Proof. reflexivity. Qed.

(** X1. [setQ] assigns the four components or none.  With four numbers it
    assigns them and returns the receiver; with a quaternion as first
    argument it copies its components, whatever the other arguments are,
    and returns [None] (also when the quaternion is the receiver itself);
    with a first argument that is not a quaternion and an argument that is
    not a number it raises [QuaternionException] and the store is
    unchanged. *)
Theorem setQ_all_or_nothing h self q :
  h !! self = Some (OQuaternion q) ->
  (forall a b c d,
     Quaternion.setQ self (VNum a) (VNum b) (VNum c) (VNum d) h
     = (Ok (VRef self), <[self := Qobj a b c d]> h)) /\
  (forall src a b c d vi vj vk,
     h !! src = Some (Qobj a b c d) ->
     Quaternion.setQ self (VRef src) vi vj vk h
     = (Ok VNone, <[self := Qobj a b c d]> h)) /\
  (forall vo vi vj vk,
     Quaternion.isQuaternion vo h = (Ok false, h) ->
     InstanceCheck.isFloat vo && InstanceCheck.isFloat vi &&
     InstanceCheck.isFloat vj && InstanceCheck.isFloat vk = false ->
     Quaternion.setQ self vo vi vj vk h
     = (Raise (QuaternionException "Invalid input arguments"), h)).
Proof.
  intros Hself. split; [|split].
  - intros a b c d. unfold Quaternion.setQ. etransitivity; [run | tidy].
  - intros src a b c d vi vj vk Hsrc. unfold Quaternion.setQ.
    destruct (decide (src = self)) as [->|Hne].
    + rewrite Hself in Hsrc. injection Hsrc as ->.
      etransitivity; [run | tidy].
    + etransitivity; [run | tidy].
  - intros vo vi vj vk Hq Hf. unfold Quaternion.setQ.
    eapply bind_ok; [exact Hq|]. cbv beta iota. by rewrite Hf.
Qed.

Lemma setQ_all_or_nothing_witness :
  let h : heap := {[ 1%positive := Qobj (PInt 1) (PInt 2) (PInt 3) (PInt 4) ]} in
  Quaternion.setQ 1%positive (VNum (PInt 5)) (VStr "6") (VNum (PInt 7)) (VNum (PInt 8)) h
  = (Raise (QuaternionException "Invalid input arguments"), h).
Proof.
  intros h.
  assert (Hself : h !! 1%positive = Some (Qobj (PInt 1) (PInt 2) (PInt 3) (PInt 4)))
    by reflexivity.
  exact (proj2 (proj2 (setQ_all_or_nothing h 1%positive _ Hself))
           (VNum (PInt 5)) (VStr "6") (VNum (PInt 7)) (VNum (PInt 8)) eq_refl eq_refl).
Defined.

(** X2. [Quaternion(q, ...)] with a quaternion [q] as first argument
    returns a new object with the components of [q] and ignores the other
    arguments; [q] and every other object are unchanged, so a later
    assignment to the copy does not reach [q]. *)
Theorem constructor_copies h src a b c d vi vj vk :
  h !! src = Some (Qobj a b c d) ->
  exists l,
    h !! l = None /\
    Quaternion.new (VRef src) vi vj vk h = (Ok l, <[l := Qobj a b c d]> h) /\
    forall v, exists h',
      (cp ← Quaternion.new (VRef src) vi vj vk; Quaternion.setScalar cp (VNum v)) h
      = (Ok l, h') /\
      h' !! src = Some (Qobj a b c d) /\ h' !! l = Some (Qobj v b c d).
Proof.
  intros Hsrc. exists (fresh (dom h)).
  assert (Hnew : Quaternion.new (VRef src) vi vj vk h
                 = (Ok (fresh (dom h)), <[fresh (dom h) := Qobj a b c d]> h)).
  { unfold Quaternion.new, Quaternion.__init__, Quaternion.setQ.
    etransitivity; [run | tidy]. }
  split; [apply fresh_None|]. split; [exact Hnew|].
  intros v. eexists. split.
  - eapply bind_ok; [exact Hnew|]. cbv beta. unfold Quaternion.setScalar. run.
  - split; lookup.
Qed.

Lemma constructor_copies_witness :
  let h : heap := {[ 1%positive := Qobj (PInt 1) (PInt 2) (PInt 3) (PInt 4) ]} in
  exists l,
    h !! l = None /\
    Quaternion.new (VRef 1%positive) (VStr "ignored") VNone VNone h
    = (Ok l, <[l := Qobj (PInt 1) (PInt 2) (PInt 3) (PInt 4)]> h).
Proof.
  intros h.
  assert (Hsrc : h !! 1%positive = Some (Qobj (PInt 1) (PInt 2) (PInt 3) (PInt 4)))
    by reflexivity.
  destruct (constructor_copies h 1%positive _ _ _ _ (VStr "ignored") VNone VNone Hsrc)
    as (l & Hl & Hnew & _).
  exists l. split; [exact Hl | exact Hnew].
Defined.

(** ** Quaternion: addition and subtraction *)

Lemma run_add_quat h l1 l2 a1 b1 c1 d1 a2 b2 c2 d2 :
  h !! l1 = Some (Qobj a1 b1 c1 d1) ->
  h !! l2 = Some (Qobj a2 b2 c2 d2) ->
  Quaternion.__add__ l1 (VRef l2) h
  = (Ok (fresh (dom h)),
     <[fresh (dom h) := Qobj (a1 + a2) (b1 + b2) (c1 + c2) (d1 + d2)]> h).
Proof. intros H1 H2. unfold Quaternion.__add__. run_with qcall. Qed.

Lemma run_add_scalar h l1 a1 b1 c1 d1 s :
  h !! l1 = Some (Qobj a1 b1 c1 d1) ->
  Quaternion.__add__ l1 (VNum s) h
  = (Ok (fresh (dom h)), <[fresh (dom h) := Qobj (a1 + s) b1 c1 d1]> h).
Proof. intros H1. unfold Quaternion.__add__. run_with qcall. Qed.

Lemma run_sub_quat h l1 l2 a1 b1 c1 d1 a2 b2 c2 d2 :
  h !! l1 = Some (Qobj a1 b1 c1 d1) ->
  h !! l2 = Some (Qobj a2 b2 c2 d2) ->
  Quaternion.__sub__ l1 (VRef l2) h
  = (Ok (fresh (dom h)),
     <[fresh (dom h) := Qobj (a1 - a2) (b1 - b2) (c1 - c2) (d1 - d2)]> h).
Proof. intros H1 H2. unfold Quaternion.__sub__. run_with qcall. Qed.

Lemma run_sub_scalar h l1 a1 b1 c1 d1 s :
  h !! l1 = Some (Qobj a1 b1 c1 d1) ->
  Quaternion.__sub__ l1 (VNum s) h
  = (Ok (fresh (dom h)), <[fresh (dom h) := Qobj (a1 - s) b1 c1 d1]> h).
Proof. intros H1. unfold Quaternion.__sub__. run_with qcall. Qed.

Lemma run_iadd_quat h l1 l2 a1 b1 c1 d1 a2 b2 c2 d2 :
  h !! l1 = Some (Qobj a1 b1 c1 d1) ->
  h !! l2 = Some (Qobj a2 b2 c2 d2) ->
  Quaternion.__iadd__ l1 (VRef l2) h
  = (Ok l1, <[l1 := Qobj (a1 + a2) (b1 + b2) (c1 + c2) (d1 + d2)]> h).
Proof.
  intros H1 H2. unfold Quaternion.__iadd__.
  destruct (decide (l2 = l1)) as [->|Hne].
  - rewrite H1 in H2. injection H2 as <- <- <- <-.
    etransitivity; [run | tidy].
  - etransitivity; [run | tidy].
Qed.

Lemma run_isub_quat h l1 l2 a1 b1 c1 d1 a2 b2 c2 d2 :
  h !! l1 = Some (Qobj a1 b1 c1 d1) ->
  h !! l2 = Some (Qobj a2 b2 c2 d2) ->
  Quaternion.__isub__ l1 (VRef l2) h
  = (Ok l1, <[l1 := Qobj (a1 - a2) (b1 - b2) (c1 - c2) (d1 - d2)]> h).
Proof.
  intros H1 H2. unfold Quaternion.__isub__.
  destruct (decide (l2 = l1)) as [->|Hne].
  - rewrite H1 in H2. injection H2 as <- <- <- <-.
    etransitivity; [run | tidy].
  - etransitivity; [run | tidy].
Qed.

Lemma run_isub_scalar h l1 a1 b1 c1 d1 s :
  h !! l1 = Some (Qobj a1 b1 c1 d1) ->
  Quaternion.__isub__ l1 (VNum s) h
  = (Ok l1, <[l1 := Qobj (a1 - s) b1 c1 d1]> h).
Proof.
  intros H1. unfold Quaternion.__isub__.
  etransitivity; [run | tidy].
Qed.







(** X6. The six arithmetic operators raise [QuaternionException] on an
    operand that is neither a quaternion nor a number, and the store is
    unchanged: the in-place forms have not touched the receiver. *)
Theorem unsupported_operand_raises h self v :
  Quaternion.isQuaternion v h = (Ok false, h) ->
  InstanceCheck.isFloat v = false ->
  let r := (Raise (QuaternionException "Input must be a quaternion or a float"), h) in
  Quaternion.__add__ self v h = r /\ Quaternion.__sub__ self v h = r /\
  Quaternion.__mul__ self v h = r /\ Quaternion.__iadd__ self v h = r /\
  Quaternion.__isub__ self v h = r /\ Quaternion.__imul__ self v h = r.
Proof.
  intros Hq Hf r.
  unfold Quaternion.__add__, Quaternion.__sub__, Quaternion.__mul__,
    Quaternion.__iadd__, Quaternion.__isub__, Quaternion.__imul__.
  repeat split.
  1-3: eapply bind_ok; [exact Hq|]; cbv beta iota; by rewrite Hf.
  all: eapply bind_ok; [exact Hq|]; cbv beta iota; rewrite Hf; by eapply bind_raise.
Qed.

Lemma unsupported_operand_raises_witness :
  let h : heap := {[ 1%positive := Qobj (PInt 1) (PInt 2) (PInt 3) (PInt 4) ]} in
  Quaternion.__imul__ 1%positive (VStr "abc") h
  = (Raise (QuaternionException "Input must be a quaternion or a float"), h).
Proof.
  intros h.
  exact (proj2 (proj2 (proj2 (proj2 (proj2
    (unsupported_operand_raises h 1%positive (VStr "abc") eq_refl eq_refl)))))).
Defined.

(** ** Quaternion: negation and conjugation *)

Lemma neg_neg (a : num) : (- - a)%num = a.
Proof. destruct a; cbn; f_equal; [lia | lra]. Qed.

Lemma run_neg h l a b c d :
  h !! l = Some (Qobj a b c d) ->
  Quaternion.__neg__ l h
  = (Ok (fresh (dom h)), <[fresh (dom h) := Qobj (- a) (- b) (- c) (- d)]> h).
Proof. intros H1. unfold Quaternion.__neg__. run_with qcall. Qed.



Lemma sqnorm_conj_product q :
  Algebra.hamilton q (Algebra.conj q) = Algebra.Quat (Algebra.sqnorm q) 0 0 0 /\
  Algebra.hamilton (Algebra.conj q) q = Algebra.Quat (Algebra.sqnorm q) 0 0 0.
Proof.
  destruct q as [a b c d]. unfold Algebra.hamilton, Algebra.conj, Algebra.sqnorm.
  cbn [Algebra.re Algebra.im_i Algebra.im_j Algebra.im_k]. split; f_equal; ring.
Qed.



(** ** Quaternion: laws of the product *)

Lemma hamilton_assoc p q r :
  Algebra.hamilton (Algebra.hamilton p q) r = Algebra.hamilton p (Algebra.hamilton q r).
Proof.
  destruct p, q, r. unfold Algebra.hamilton.
  cbn [Algebra.re Algebra.im_i Algebra.im_j Algebra.im_k]. f_equal; ring.
Qed.

Lemma conj_hamilton p q :
  Algebra.conj (Algebra.hamilton p q)
  = Algebra.hamilton (Algebra.conj q) (Algebra.conj p).
Proof.
  destruct p, q. unfold Algebra.hamilton, Algebra.conj.
  cbn [Algebra.re Algebra.im_i Algebra.im_j Algebra.im_k]. f_equal; ring.
Qed.

Lemma sqnorm_hamilton p q :
  Algebra.sqnorm (Algebra.hamilton p q) = (Algebra.sqnorm p * Algebra.sqnorm q)%R.
Proof.
  destruct p, q. unfold Algebra.hamilton, Algebra.sqnorm.
  cbn [Algebra.re Algebra.im_i Algebra.im_j Algebra.im_k]. ring.
Qed.

Lemma norm_hamilton p q :
  Algebra.norm (Algebra.hamilton p q) = (Algebra.norm p * Algebra.norm q)%R.
Proof.
  unfold Algebra.norm. rewrite sqnorm_hamilton.
  apply sqrt_mult; apply sqnorm_nonneg.
Qed.







(** ** Quaternion: reciprocal and unit, applied twice *)

Lemma val_sqsum_float a b c d s :
  (a * a + b * b + c * c + d * d)%num = PFloat s ->
  (val a * val a + val b * val b + val c * val c + val d * val d = s)%R.
Proof. intros Hs. apply (f_equal val) in Hs. revert Hs. vals. done. Qed.

Lemma run_reciprocal_float h l a b c d s :
  h !! l = Some (Qobj a b c d) ->
  (a * a + b * b + c * c + d * d)%num = PFloat s ->
  (val Quaternion.eps <= s)%R ->
  Quaternion.reciprocal l h
  = (Ok (fresh (dom h)),
     <[fresh (dom h) := Qobj (PFloat (val a / s)) (PFloat (- val b / s))
                             (PFloat (- val c / s)) (PFloat (- val d / s))]> h).
Proof.
  intros Hl Hs Hn. pose proof eps_pos as Hpos.
  pose proof (val_sqsum_float _ _ _ _ _ Hs) as Hv.
  destruct (run_reciprocal h l a b c d Hl) as (a' & b' & c' & d' & Ha & Hb & Hc & Hd & Hrun).
  { unfold Algebra.sqnorm, qval. cbn [Algebra.re Algebra.im_i Algebra.im_j Algebra.im_k]. lra. }
  rewrite Hs, div_float in Ha, Hb, Hc, Hd by lra.
  rewrite val_neg in Hb, Hc, Hd.
  injection Ha as <-. injection Hb as <-. injection Hc as <-. injection Hd as <-.
  exact Hrun.
Qed.



Lemma sqnorm_scale_unit q :
  Algebra.sqnorm q ≠ 0%R ->
  Algebra.sqnorm (Algebra.scale q (/ Algebra.norm q)) = 1%R.
Proof.
  intros Hn. pose proof (norm_scale_unit q Hn) as H1.
  pose proof (sqnorm_nonneg (Algebra.scale q (/ Algebra.norm q))) as Hpos.
  rewrite <- (sqrt_sqrt _ Hpos). unfold Algebra.norm in H1 at 1. rewrite H1. ring.
Qed.



(** ** Point3D *)

Lemma run_setPoint h self p0 lp a b c :
  h !! self = Some (OPoint3D p0) ->
  h !! lp = Some (Pobj a b c) ->
  Point3D.setPoint self (VRef lp) h = (Ok tt, <[self := Pobj a b c]> h).
Proof.
  intros Hself Hp. unfold Point3D.setPoint.
  destruct (decide (lp = self)) as [->|Hne].
  - rewrite Hself in Hp. injection Hp as ->. etransitivity; [run | tidy].
  - etransitivity; [run | tidy].
Qed.

Lemma new_Point3D_raise h vx vy vz :
  InstanceCheck.isFloat vx && InstanceCheck.isFloat vy && InstanceCheck.isFloat vz = false ->
  Point3D.isPoint3D vx h = (Ok false, h) ->
  (forall l, vx = VRef l -> is_Some (h !! l)) ->
  Point3D.new vx vy vz h
  = (Raise (PointException "Invalid input arguments"),
     <[fresh (dom h) := OPoint3D {| x := None; y := None; z := None |}]> h).
Proof.
  intros Hf Hp Href. set (h0 := <[fresh (dom h) := OPoint3D {| x := None; y := None; z := None |}]> h).
  assert (Hp' : Point3D.isPoint3D vx h0 = (Ok false, h0)).
  { unfold Point3D.isPoint3D in *. destruct vx as [| | |l]; try reflexivity.
    subst h0. destruct (decide (l = fresh (dom h))) as [->|Hne].
    - destruct (Href _ eq_refl) as [ob Hob]. rewrite fresh_None in Hob. discriminate.
    - rewrite lookup_insert_ne by done. by injection Hp as ->. }
  unfold Point3D.new.
  eapply bind_ok; [apply run_alloc|]. cbv beta. fold h0.
  eapply bind_raise. unfold Point3D.__init__. rewrite Hf.
  eapply bind_ok; [exact Hp'|reflexivity].
Qed.

(** X14. [Point3D(x, y, z)] has three outcomes.  With three numbers it
    returns a new point holding them.  With a point as first argument it
    returns a new point with the same components, whatever the other
    arguments are, and the copy is independent: assigning to it leaves the
    original as it was.  In every other case (the first argument, when it
    is an object, being an object of the store) it raises
    [PointException], and no object of the caller's store has changed. *)
Theorem point_constructor_cases (h : heap) :
  (forall a b c,
     exists l, h !! l = None /\
       Point3D.new (VNum a) (VNum b) (VNum c) h = (Ok l, <[l := Pobj a b c]> h)) /\
  (forall lp a b c vy vz,
     h !! lp = Some (Pobj a b c) ->
     exists l, h !! l = None /\
       Point3D.new (VRef lp) vy vz h = (Ok l, <[l := Pobj a b c]> h) /\
       forall v, exists h',
         (cp ← Point3D.new (VRef lp) vy vz; Point3D.setX cp (VNum v)) h = (Ok tt, h') /\
         h' !! lp = Some (Pobj a b c) /\ h' !! l = Some (Pobj v b c)) /\
  (forall vx vy vz,
     InstanceCheck.isFloat vx && InstanceCheck.isFloat vy && InstanceCheck.isFloat vz
     = false ->
     Point3D.isPoint3D vx h = (Ok false, h) ->
     (forall l, vx = VRef l -> is_Some (h !! l)) ->
     exists h',
       Point3D.new vx vy vz h = (Raise (PointException "Invalid input arguments"), h') /\
       forall l ob, h !! l = Some ob -> h' !! l = Some ob).
Proof.
  split; [|split].
  - intros a b c. exists (fresh (dom h)).
    split; [apply fresh_None | apply run_new_Point3D].
  - intros lp a b c vy vz Hp. exists (fresh (dom h)).
    split; [apply fresh_None|]. split; [by apply run_new_Point3D_copy|].
    intros v. eexists. split.
    + eapply bind_ok; [by apply run_new_Point3D_copy|]. cbv beta.
      unfold Point3D.setX. run.
    + split; lookup.
  - intros vx vy vz Hf Hp Href. eexists. split; [by apply new_Point3D_raise|].
    intros l ob Hl. lookup.
Qed.

Lemma point_constructor_cases_witness :
  let h : heap := {[ 1%positive := Pobj (PInt 1) (PInt 2) (PInt 3) ]} in
  (exists l, h !! l = None /\
     Point3D.new (VRef 1%positive) (VStr "ignored") VNone h
     = (Ok l, <[l := Pobj (PInt 1) (PInt 2) (PInt 3)]> h)) /\
  (exists h',
     Point3D.new (VNum (PInt 1)) (VStr "2") (VNum (PInt 3)) h
     = (Raise (PointException "Invalid input arguments"), h')).
Proof.
  intros h. split.
  - destruct (proj1 (proj2 (point_constructor_cases h)) 1%positive _ _ _
                (VStr "ignored") VNone eq_refl) as (l & Hl & Hnew & _).
    exists l. split; [exact Hl | exact Hnew].
  - destruct (proj2 (proj2 (point_constructor_cases h))
                (VNum (PInt 1)) (VStr "2") (VNum (PInt 3)) eq_refl eq_refl
                ltac:(discriminate))
      as (h' & Hraise & _).
    exists h'. exact Hraise.
Defined.

(** X15. The mutators of a point validate their argument before they
    assign.  [setX], [setY] and [setZ] with a number assign their own
    component only; with any other value they raise [PointException] and
    the store is unchanged.  [setPoint(p)] with a point [p] copies its
    three components ([p] may be the receiver itself, and is unchanged);
    with any other value it raises [PointException] and the store is
    unchanged. *)
Theorem point_mutators_validate_then_assign h self p0 v :
  h !! self = Some (OPoint3D p0) ->
  Point3D.setX self v h
  = match v with
    | VNum n => (Ok tt, <[self := OPoint3D {| x := Some n; y := y p0; z := z p0 |}]> h)
    | _ => (Raise (PointException "Invalid input argument"), h)
    end
  /\ Point3D.setY self v h
  = match v with
    | VNum n => (Ok tt, <[self := OPoint3D {| x := x p0; y := Some n; z := z p0 |}]> h)
    | _ => (Raise (PointException "Invalid input argument"), h)
    end
  /\ Point3D.setZ self v h
  = match v with
    | VNum n => (Ok tt, <[self := OPoint3D {| x := x p0; y := y p0; z := Some n |}]> h)
    | _ => (Raise (PointException "Invalid input argument"), h)
    end
  /\ (forall lp a b c,
        v = VRef lp -> h !! lp = Some (Pobj a b c) ->
        exists h',
          Point3D.setPoint self v h = (Ok tt, h') /\
          h' !! self = Some (Pobj a b c) /\ h' !! lp = Some (Pobj a b c) /\
          forall l ob, l ≠ self -> h !! l = Some ob -> h' !! l = Some ob)
  /\ (Point3D.isPoint3D v h = (Ok false, h) ->
      Point3D.setPoint self v h = (Raise (PointException "Invalid input argument"), h)).
Proof.
  intros Hself.
  split; [|split; [|split; [|split]]].
  - unfold Point3D.setX. destruct v; try reflexivity; run.
  - unfold Point3D.setY. destruct v; try reflexivity; run.
  - unfold Point3D.setZ. destruct v; try reflexivity; run.
  - intros lp a b c -> Hp. eexists. split; [by eapply run_setPoint|].
    split; [apply lookup_insert_eq|]. split.
    + destruct (decide (lp = self)) as [->|Hne]; [apply lookup_insert_eq|].
      by rewrite lookup_insert_ne.
    + intros l ob Hne Hl. by rewrite lookup_insert_ne.
  - intros Hp. unfold Point3D.setPoint. eapply bind_ok; [exact Hp|]. reflexivity.
Qed.

Lemma point_mutators_validate_then_assign_witness :
  let h : heap := {[ 1%positive := Pobj (PInt 1) (PInt 2) (PInt 3) ]} in
  Point3D.setY 1%positive (VNum (PFloat 7)) h
  = (Ok tt, <[1%positive := Pobj (PInt 1) (PFloat 7) (PInt 3)]> h)
  /\ Point3D.setY 1%positive (VStr "7") h
     = (Raise (PointException "Invalid input argument"), h)
  /\ Point3D.setPoint 1%positive VNone h
     = (Raise (PointException "Invalid input argument"), h).
Proof.
  intros h.
  assert (Hself : h !! 1%positive
                  = Some (OPoint3D {| x := Some (PInt 1); y := Some (PInt 2);
                                      z := Some (PInt 3) |})) by reflexivity.
  split; [|split].
  - exact (proj1 (proj2
      (point_mutators_validate_then_assign h 1%positive _ (VNum (PFloat 7)) Hself))).
  - exact (proj1 (proj2
      (point_mutators_validate_then_assign h 1%positive _ (VStr "7") Hself))).
  - exact (proj2 (proj2 (proj2 (proj2
      (point_mutators_validate_then_assign h 1%positive _ VNone Hself)))) eq_refl).
Defined.

(** ** Rotation: what [rotate] preserves *)

Lemma sqnorm_of_norm_1 q : Algebra.norm q = 1%R -> Algebra.sqnorm q = 1%R.
Proof.
  intros H1. rewrite <- (sqrt_sqrt _ (sqnorm_nonneg q)).
  unfold Algebra.norm in H1. rewrite H1. ring.
Qed.

(** The sandwich product of a pure quaternion is pure. *)
Lemma sandwich_re q px py pz :
  Algebra.re (Algebra.hamilton (Algebra.hamilton q (Algebra.pure px py pz))
                               (Algebra.conj q)) = 0%R.
Proof.
  destruct q as [a b c d]. unfold Algebra.hamilton, Algebra.conj, Algebra.pure.
  cbn [Algebra.re Algebra.im_i Algebra.im_j Algebra.im_k]. ring.
Qed.

Lemma sandwich_sqlen q px py pz :
  let s := Algebra.hamilton (Algebra.hamilton q (Algebra.pure px py pz)) (Algebra.conj q) in
  (Algebra.im_i s * Algebra.im_i s + Algebra.im_j s * Algebra.im_j s
   + Algebra.im_k s * Algebra.im_k s
   = Algebra.sqnorm q * Algebra.sqnorm q * (px * px + py * py + pz * pz))%R.
Proof.
  destruct q as [a b c d]. unfold Algebra.hamilton, Algebra.conj, Algebra.pure, Algebra.sqnorm.
  cbn [Algebra.re Algebra.im_i Algebra.im_j Algebra.im_k]. ring.
Qed.

(** A vector along the axis commutes with the rotation quaternion. *)
Lemma sandwich_axis ux uy uz t f :
  (ux * ux + uy * uy + uz * uz = 1)%R ->
  let q := Algebra.axis_angle ux uy uz t in
  let s := Algebra.hamilton (Algebra.hamilton q (Algebra.pure (ux * f) (uy * f) (uz * f)))
                            (Algebra.conj q) in
  Algebra.im_i s = (ux * f)%R /\ Algebra.im_j s = (uy * f)%R /\ Algebra.im_k s = (uz * f)%R.
Proof.
  intros Hu. unfold Algebra.hamilton, Algebra.conj, Algebra.pure, Algebra.axis_angle.
  cbn [Algebra.re Algebra.im_i Algebra.im_j Algebra.im_k].
  pose proof (sin2_cos2 (t / 2)) as Hsc. unfold Rsqr in Hsc.
  set (co := cos (t / 2)) in *. set (si := sin (t / 2)) in *.
  assert (H1 : (co * co + si * si * (ux * ux + uy * uy + uz * uz) = 1)%R)
    by (rewrite Hu; lra).
  repeat split.
  - transitivity ((co * co + si * si * (ux * ux + uy * uy + uz * uz)) * (ux * f))%R;
      [ring | rewrite H1; ring].
  - transitivity ((co * co + si * si * (ux * ux + uy * uy + uz * uz)) * (uy * f))%R;
      [ring | rewrite H1; ring].
  - transitivity ((co * co + si * si * (ux * ux + uy * uy + uz * uz)) * (uz * f))%R;
      [ring | rewrite H1; ring].
Qed.

Lemma run_sqSum h l a b c :
  h !! l = Some (Pobj a b c) ->
  Point3D.sqSum l h = (Ok (a * a + b * b + c * c)%num, h).
Proof. intros Hl. unfold Point3D.sqSum. run. Qed.

Lemma run_getAxis h self r lr ux uy uz f :
  h !! self = Some (ORotation r) ->
  __r r = Some lr ->
  h !! lr = Some (Pobj ux uy uz) ->
  Rotation.getAxis self (VNum f) h
  = (Ok (fresh (dom h)), <[fresh (dom h) := Pobj (ux * f) (uy * f) (uz * f)]> h).
Proof. intros Hself Hlr Hr. unfold Rotation.getAxis. run_with rcall. Qed.

(** The invariant depends on the three objects of the rotation only. *)
Lemma rotation_inv_frame h h' self :
  (forall l ob, h !! l = Some ob -> h' !! l = Some ob) ->
  rotation_inv h self -> rotation_inv h' self.
Proof.
  intros Hframe (lr & lq & ux & uy & uz & theta & qo & qi & qj & qk &
                 Hself & Hr & Hq & Hrest).
  exists lr, lq, ux, uy, uz, theta, qo, qi, qj, qk. auto 10.
Qed.

(** A rotation by the angle 0 about the z axis, used as an example. *)
Lemma sample_rotation_inv :
  rotation_inv ({[ 1%positive := Robj 2%positive (PInt 0) 3%positive;
                   2%positive := Pobj (PInt 0) (PInt 0) (PInt 1);
                   3%positive := Qobj (PInt 1) (PInt 0) (PInt 0) (PInt 0);
                   4%positive := Pobj (PInt 1) (PInt 2) (PInt 3) ]} : heap) 1%positive.
Proof.
  exists 2%positive, 3%positive, (PInt 0), (PInt 0), (PInt 1), (PInt 0),
    (PInt 1), (PInt 0), (PInt 0), (PInt 0).
  split; [reflexivity|]. split; [reflexivity|]. split; [reflexivity|].
  assert (Hq : qval (PInt 1) (PInt 0) (PInt 0) (PInt 0)
               = Algebra.axis_angle (val (PInt 0)) (val (PInt 0)) (val (PInt 1))
                                    (val (PInt 0))).
  { unfold qval, Algebra.axis_angle. cbn [val].
    replace (0 / 2)%R with 0%R by lra. rewrite cos_0, sin_0. f_equal; ring. }
  split; [cbn [val]; lra|]. split; [exact Hq|].
  rewrite Hq. apply norm_axis_angle. cbn [val]. lra.
Qed.





(** ** Rotation: a new angle about the same axis *)

Lemma norm_unit_axis ux uy uz :
  (val ux * val ux + val uy * val uy + val uz * val uz = 1)%R ->
  Algebra.norm (qval (PFloat 0) ux uy uz) = 1%R.
Proof.
  intros Hu. unfold Algebra.norm, Algebra.sqnorm, qval.
  cbn [Algebra.re Algebra.im_i Algebra.im_j Algebra.im_k val].
  replace (0 * 0 + val ux * val ux + val uy * val uy + val uz * val uz)%R with 1%R by lra.
  apply sqrt_1.
Qed.

(** [setAngle] on a rotation whose stored axis is a unit vector: it
    returns, the axis keeps its components as real numbers, and the new
    quaternion is the one of the axis and the new angle. *)
Lemma setAngle_on_unit_axis h self lr theta0 lq0 ux uy uz t :
  h !! self = Some (Robj lr theta0 lq0) ->
  h !! lr = Some (Pobj ux uy uz) ->
  (val ux * val ux + val uy * val uy + val uz * val uz = 1)%R ->
  exists h' lq ux' uy' uz' qo qi qj qk,
    Rotation.setAngle self (VNum t) h = (Ok tt, h') /\
    h !! lq = None /\
    h' !! self = Some (Robj lr t lq) /\
    h' !! lr = Some (Pobj ux' uy' uz') /\
    (val ux' = val ux /\ val uy' = val uy /\ val uz' = val uz) /\
    h' !! lq = Some (Qobj qo qi qj qk) /\
    qval qo qi qj qk = Algebra.axis_angle (val ux) (val uy) (val uz) (val t) /\
    (forall l ob, h !! l = Some ob -> l ≠ self -> l ≠ lr -> h' !! l = Some ob) /\
    (forall lp px py pz,
       h !! lp = Some (Pobj px py pz) ->
       exists px' py' pz',
         h' !! lp = Some (Pobj px' py' pz') /\
         val px' = val px /\ val py' = val py /\ val pz' = val pz).
Proof.
  intros Hself Hr Hu.
  pose proof (norm_unit_axis _ _ _ Hu) as Hn.
  destruct (setAngle_ok h self lr _ ux uy uz Hself eq_refl Hr t)
    as (h' & Hrun & lq & Hfresh & Hself' & Hr' & Hq' & Hframe).
  { rewrite Hn, val_eps. lra. }
  rewrite Hn in Hr', Hq'.
  assert (Hvals : val (PFloat (val ux / 1)) = val ux /\ val (PFloat (val uy / 1)) = val uy
                  /\ val (PFloat (val uz / 1)) = val uz)
    by (cbn [val]; repeat split; field).
  exists h', lq. eexists _, _, _, _, _, _, _.
  split; [exact Hrun|]. split; [exact Hfresh|]. split; [exact Hself'|].
  split; [exact Hr'|]. split; [exact Hvals|]. split; [exact Hq'|]. split; [|split].
  - unfold qval, Algebra.axis_angle, math.sin, math.cos. vals.
    cbn [val]. rewrite half_angle. f_equal; field.
  - exact Hframe.
  - intros lp px py pz Hp. destruct (decide (lp = lr)) as [->|Hne].
    + rewrite Hr in Hp. injection Hp as <- <- <-. eauto 10.
    + exists px, py, pz. split; [|done]. apply Hframe; [done | congruence | done].
Qed.

(** Two rotations about the same unit axis compose to the rotation by the
    sum of the angles. *)
Lemma axis_angle_add ux uy uz t1 t2 :
  (ux * ux + uy * uy + uz * uz = 1)%R ->
  Algebra.hamilton (Algebra.axis_angle ux uy uz t2) (Algebra.axis_angle ux uy uz t1)
  = Algebra.axis_angle ux uy uz (t1 + t2).
Proof.
  intros Hu. unfold Algebra.hamilton, Algebra.axis_angle.
  cbn [Algebra.re Algebra.im_i Algebra.im_j Algebra.im_k].
  replace ((t1 + t2) / 2)%R with (t1 / 2 + t2 / 2)%R by lra.
  rewrite cos_plus, sin_plus.
  set (c1 := cos (t1 / 2)). set (s1 := sin (t1 / 2)).
  set (c2 := cos (t2 / 2)). set (s2 := sin (t2 / 2)).
  f_equal; try ring.
  transitivity (c1 * c2 - s1 * s2 * (ux * ux + uy * uy + uz * uz))%R;
    [ring | rewrite Hu; ring].
Qed.

Lemma sandwich_compose q2 q1 p :
  Algebra.hamilton
    (Algebra.hamilton q2 (Algebra.hamilton (Algebra.hamilton q1 p) (Algebra.conj q1)))
    (Algebra.conj q2)
  = Algebra.hamilton (Algebra.hamilton (Algebra.hamilton q2 q1) p)
                     (Algebra.conj (Algebra.hamilton q2 q1)).
Proof. rewrite conj_hamilton, !hamilton_assoc. reflexivity. Qed.

Lemma pure_sandwich q px py pz :
  let s := Algebra.hamilton (Algebra.hamilton q (Algebra.pure px py pz)) (Algebra.conj q) in
  Algebra.pure (Algebra.im_i s) (Algebra.im_j s) (Algebra.im_k s) = s.
Proof.
  intros s. pose proof (sandwich_re q px py pz) as Hre. fold s in Hre.
  destruct s as [a b c d]. cbn [Algebra.re Algebra.im_i Algebra.im_j Algebra.im_k] in *.
  unfold Algebra.pure. by rewrite Hre.
Qed.



(** ** Rotation: the accessors *)



(** Whatever [Point3D(x, y, z)] does, it leaves the objects of the store
    as they were. *)
Lemma new_Point3D_frame h vx vy vz r h1 :
  Point3D.new vx vy vz h = (r, h1) ->
  forall l ob, h !! l = Some ob -> h1 !! l = Some ob.
Proof.
  intros Hnew.
  assert (Hh1 : exists ob', h1 = <[fresh (dom h) := ob']> h).
  { revert Hnew. destruct vx as [a| | |lp].
    - destruct vy as [b| | |], vz as [c| | |];
        try solve [mcompute; intros [= <- <-]; eauto].
      rewrite run_new_Point3D. intros [= <- <-]. eauto.
    - mcompute. intros [= <- <-]. eauto.
    - mcompute. intros [= <- <-]. eauto.
    - destruct (decide (lp = fresh (dom h))) as [->|Hne].
      { mcompute. intros [= <- <-]. eauto. }
      destruct (h !! lp) as [[q|[[a|] [b|] [c|]]|r0]|] eqn:Hlp;
        mcompute; intros [= <- <-]; rewrite ?insert_insert_eq; eauto. }
  destruct Hh1 as [ob' ->]. intros l ob Hl. lookup.
Qed.



Lemma run_setQ_nums h self q a b c d :
  h !! self = Some (OQuaternion q) ->
  Quaternion.setQ self (VNum a) (VNum b) (VNum c) (VNum d) h
  = (Ok (VRef self), <[self := Qobj a b c d]> h).
Proof. intros Hself. unfold Quaternion.setQ. etransitivity; [run | tidy]. Qed.



(** ** Rotation: arguments that are rejected *)

(** X22. The arguments of a rotation are validated before anything is
    assigned.  [Rotation(rx, ry, rz, angle)] with an angle that is not a
    number raises [RotationException] whatever the axis is; [setAngle]
    with such an angle raises it and the store is unchanged; [setAxis]
    with arguments that are neither three numbers nor a point raises it,
    no object of the store has changed, and a rotation that satisfied the
    invariant still does. *)
Theorem rotation_rejects_bad_arguments (h : heap) :
  (forall rx ry rz angle,
     InstanceCheck.isFloat angle = false ->
     exists h',
       Rotation.new rx ry rz angle h
       = (Raise (RotationException "Angle must be a float value"), h') /\
       forall l ob, h !! l = Some ob -> h' !! l = Some ob) /\
  (forall self angle,
     InstanceCheck.isFloat angle = false ->
     Rotation.setAngle self angle h
     = (Raise (RotationException "Angle must be float value"), h)) /\
  (forall self rx ry rz,
     InstanceCheck.isFloat rx && InstanceCheck.isFloat ry && InstanceCheck.isFloat rz
     = false ->
     Point3D.isPoint3D rx h = (Ok false, h) ->
     (forall l, rx = VRef l -> is_Some (h !! l)) ->
     exists h',
       Rotation.setAxis self rx ry rz h
       = (Raise (RotationException "Invalid input argument"), h') /\
       (forall l ob, h !! l = Some ob -> h' !! l = Some ob) /\
       (rotation_inv h self -> rotation_inv h' self)).
Proof.
  split; [|split].
  - intros rx ry rz angle Hf. eexists. split.
    + unfold Rotation.new. eapply bind_ok; [apply run_alloc|]. cbv beta.
      eapply bind_raise. unfold Rotation.__init__. rewrite Hf. reflexivity.
    + intros l ob Hl. lookup.
  - intros self angle Hf. unfold Rotation.setAngle. by rewrite Hf.
  - intros self rx ry rz Hf Hp Href.
    pose proof (new_Point3D_raise h rx ry rz Hf Hp Href) as Hnew.
    eexists. split.
    + unfold Rotation.setAxis. eapply bind_raise.
      eapply try_except_raise; [by eapply bind_raise | reflexivity].
    + assert (Hframe : forall l ob, h !! l = Some ob ->
                <[fresh (dom h) := OPoint3D {| x := None; y := None; z := None |}]> h !! l
                = Some ob) by (intros l ob Hl; lookup).
      split; [exact Hframe|]. by apply rotation_inv_frame.
Qed.

Lemma rotation_rejects_bad_arguments_witness :
  let h : heap := {[ 1%positive := Robj 2%positive (PInt 0) 3%positive;
                     2%positive := Pobj (PInt 0) (PInt 0) (PInt 1);
                     3%positive := Qobj (PInt 1) (PInt 0) (PInt 0) (PInt 0);
                     4%positive := Pobj (PInt 1) (PInt 2) (PInt 3) ]} in
  (exists h',
     Rotation.new (VStr "x") VNone VNone (VStr "90") h
     = (Raise (RotationException "Angle must be a float value"), h')) /\
  Rotation.setAngle 1%positive VNone h
  = (Raise (RotationException "Angle must be float value"), h) /\
  (exists h',
     Rotation.setAxis 1%positive (VNum (PInt 1)) (VNum (PInt 0)) (VStr "0") h
     = (Raise (RotationException "Invalid input argument"), h') /\
     rotation_inv h' 1%positive).
Proof.
  intros h. split; [|split].
  - destruct (proj1 (rotation_rejects_bad_arguments h) (VStr "x") VNone VNone (VStr "90")
                eq_refl) as (h' & Hraise & _).
    exists h'. exact Hraise.
  - exact (proj1 (proj2 (rotation_rejects_bad_arguments h)) 1%positive VNone eq_refl).
  - destruct (proj2 (proj2 (rotation_rejects_bad_arguments h)) 1%positive
                (VNum (PInt 1)) (VNum (PInt 0)) (VStr "0") eq_refl eq_refl
                ltac:(discriminate)) as (h' & Hraise & _ & Hinv).
    exists h'. split; [exact Hraise | exact (Hinv sample_rotation_inv)].
Defined.

(** ** Rotation: degrees and radians *)

Lemma run_deg2rad h d :
  Rotation.deg2rad (VNum d) h = (Ok (PFloat (val d * PI / 180)), h).
Proof.
  unfold Rotation.deg2rad, Rotation.times_float, Rotation.over_float.
  eapply bind_ok; [reflexivity|]. cbv beta iota.
  rewrite div_float by lra. rewrite val_mul. reflexivity.
Qed.

Lemma run_rad2deg h r :
  Rotation.rad2deg (VNum r) h = (Ok (PFloat (val r * 180 / PI)), h).
Proof.
  unfold Rotation.rad2deg, Rotation.times_float, Rotation.over_float.
  eapply bind_ok; [reflexivity|]. cbv beta iota.
  unfold math.pi. rewrite div_float by apply PI_neq0. rewrite val_mul. reflexivity.
Qed.


(** ** Rotation: the direction of the axis *)

Lemma norm_scaled_axis a b c a' b' c' k :
  (0 <= k)%R ->
  val a' = (k * val a)%R -> val b' = (k * val b)%R -> val c' = (k * val c)%R ->
  Algebra.norm (qval (PFloat 0) a' b' c') = (k * Algebra.norm (qval (PFloat 0) a b c))%R.
Proof.
  intros Hk Ha Hb Hc. unfold Algebra.norm, Algebra.sqnorm, qval.
  cbn [Algebra.re Algebra.im_i Algebra.im_j Algebra.im_k val].
  rewrite Ha, Hb, Hc.
  replace (0 * 0 + k * val a * (k * val a) + k * val b * (k * val b)
           + k * val c * (k * val c))%R
    with (k * k * (0 * 0 + val a * val a + val b * val b + val c * val c))%R by ring.
  rewrite sqrt_mult; [|nra|nra]. by rewrite sqrt_square.
Qed.


